(** * preprocess.py: enrichment of a batch of LinkedIn posts

    A shallow embedding of [src/preprocess.py] and the properties of its
    four functions: [remove_emoji], [extract_metadata], [get_unified_tags]
    and [process_posts].

    Python values are modelled as follows.
    - A [str] is the list of its Unicode code points ([text]).
    - File contents are lists of bytes.
    - A value produced by a JSON parser is a [json] tree; a [dict] keeps
      the insertion order of its keys, so it is an association list.
    - The text reader behind [open], the language model, the two JSON
      parsers, the JSON writer and the iteration order of a [set] are
      outside the program: they are the fields of a [Platform]. The
      reader of the Python runtime is [py_read_text].
    - Statements run in a state and exception monad over a [World]
      (file system, standard output, state of the language model). *)

From Stdlib Require Import ZArith QArith List String Ascii DecimalString Lia Permutation.
From Stdlib.Strings Require Byte.
From stdpp Require Import base option list gmap.
From Equations Require Import Equations.
Import ListNotations.

#[local] Open Scope Z_scope.

(** ** Text *)

(** A Unicode code point; Python allows every value in [0, 0x10FFFF],
    lone surrogates included. *)
Definition codepoint := Z.

(** A Python [str]. *)
Definition text := list codepoint.

(** A [str] literal of the source made of ASCII characters. *)
Definition lit (s : string) : text :=
  List.map (fun a => Z.of_nat (nat_of_ascii a)) (list_ascii_of_string s).

Fixpoint text_eqb (a b : text) : bool :=
  match a, b with
  | [], [] => true
  | x :: a', y :: b' => (x =? y) && text_eqb a' b'
  | _, _ => false
  end.

(** The character [U+0022] and a string between two of them. *)
Definition dquote : codepoint := 34.
Definition quoted (s : string) : text := dquote :: lit s ++ [dquote].

(** ** remove_emoji (lines 8-17) *)

Module Emoji.

(** The six ranges of the character class, in the order of lines 10-15. *)
Definition ranges : list (codepoint * codepoint) :=
  [ (0x1F600, 0x1F64F);    (* emoticons *)
    (0x1F300, 0x1F5FF);    (* symbols & pictographs *)
    (0x1F680, 0x1F6FF);    (* transport & map symbols *)
    (0x1F1E0, 0x1F1FF);    (* flags (iOS) *)
    (0x2702, 0x27B0);
    (0x24C2, 0x1F251) ].

Definition in_range (c : codepoint) (r : codepoint * codepoint) : bool :=
  (fst r <=? c) && (c <=? snd r).

(** [c] matches the character class [[...]] of [emoji_pattern]. *)
Definition in_class (c : codepoint) : bool := existsb (in_range c) ranges.

End Emoji.

(** The rest of [s] after the longest prefix of characters of the class:
    what a greedy [[...]+] leaves once it has started to match. *)
Fixpoint skip_run (cls : codepoint -> bool) (s : text) : text :=
  match s with
  | [] => []
  | c :: r => if cls c then skip_run cls r else s
  end.

(** [re.compile("[...]+").sub('', s)]: scan from the left; where the
    pattern matches, the whole (greedy, non-empty) match is replaced by the
    empty string and the scan resumes after it; a character where it does
    not match is copied. *)
Equations? re_sub_empty (cls : codepoint -> bool) (s : text) : text
  by wf (length s) lt :=
  re_sub_empty cls [] := [];
  re_sub_empty cls (c :: r) with cls c => {
    | true := re_sub_empty cls (skip_run cls r);
    | false := c :: re_sub_empty cls r }.
Proof.
  assert (H : forall t : text, (length (skip_run cls t) <= length t)%nat).
  { induction t as [|x t IH]; simpl; [lia|]. destruct (cls x); simpl; lia. }
  specialize (H r). simpl. lia.
Qed.

Definition remove_emoji (s : text) : text := re_sub_empty Emoji.in_class s.

(** ** Exceptions *)

(** The exceptions that the program or the operations it calls raise. *)
Inductive exn :=
| OutputParserException (msg : text)
| KeyError (key : text)
| TypeError
| AttributeError
| OSError
| UnicodeDecodeError
| UnicodeError            (* the other errors of its family *)
| UnicodeEncodeError
| LLMError.               (* whatever a failed call to the model raises *)

Inductive result (A : Type) :=
| Ok (a : A)
| Raise (e : exn).
Arguments Ok {A} a.
Arguments Raise {A} e.

Definition result_bind {A B} (r : result A) (k : A -> result B) : result B :=
  match r with
  | Ok a => k a
  | Raise e => Raise e
  end.

(** ** Text encodings

    [open(path, encoding=e, errors=h)] followed by [file.read()] decodes
    the bytes of the file with the codec [e] and the error handler [h].
    The three codecs that [process_posts] names are modelled here after
    the behaviour of the Python runtime. *)

Inductive encoding := Utf8 | Utf16 | Latin1.

(** The names of line 75. *)
Definition encoding_name (e : encoding) : text :=
  match e with
  | Utf8 => lit "utf-8"
  | Utf16 => lit "utf-16"
  | Latin1 => lit "latin1"
  end.

(** The [errors] argument of [open]: ['strict'] raises on malformed input,
    ['ignore'] leaves the malformed bytes out and goes on. *)
Inductive error_handler := Strict | Ignore.

(** The outcome of reading a file as text. *)
Definition decoded := result text.

Definition emit (c : codepoint) (d : decoded) : decoded :=
  result_bind d (fun s => Ok (c :: s)).

(** What the handler makes of malformed input: ['strict'] raises,
    ['ignore'] continues with [k]. *)
Definition on_error (h : error_handler) (k : decoded) : decoded :=
  match h with
  | Strict => Raise UnicodeDecodeError
  | Ignore => k
  end.

Definition byte_val (b : Byte.byte) : Z := Z.of_N (Byte.to_N b).

Module Utf8.

(** The decoder is between two characters ([Start]) or inside a sequence
    of several bytes: [remaining] continuation bytes are still expected,
    the next of them within [lo..hi], and [acc] holds the bits read. *)
Inductive state :=
| Start
| Cont (remaining : nat) (acc : Z) (lo hi : Z).

Inductive first_byte :=
| Single (c : codepoint)
| Multi (st : state)
| InvalidStart.

(** Classification of a byte read in the [Start] state. The bounds on the
    second byte exclude overlong forms, surrogates and values above
    0x10FFFF. *)
Definition first (b : Z) : first_byte :=
  if b <? 0x80 then Single b
  else if b <? 0xC2 then InvalidStart
  else if b <? 0xE0 then Multi (Cont 1 (Z.land b 0x1F) 0x80 0xBF)
  else if b =? 0xE0 then Multi (Cont 2 (Z.land b 0x0F) 0xA0 0xBF)
  else if b =? 0xED then Multi (Cont 2 (Z.land b 0x0F) 0x80 0x9F)
  else if b <? 0xF0 then Multi (Cont 2 (Z.land b 0x0F) 0x80 0xBF)
  else if b =? 0xF0 then Multi (Cont 3 (Z.land b 0x07) 0x90 0xBF)
  else if b <? 0xF4 then Multi (Cont 3 (Z.land b 0x07) 0x80 0xBF)
  else if b =? 0xF4 then Multi (Cont 3 (Z.land b 0x07) 0x80 0x8F)
  else InvalidStart.

Fixpoint run (h : error_handler) (st : state) (bs : list Z) : decoded :=
  match bs with
  | [] =>
      match st with
      | Start => Ok []
      | Cont _ _ _ _ => on_error h (Ok [])          (* unexpected end of data *)
      end
  | b :: r =>
      let restart :=                                (* [b] read between characters *)
        match first b with
        | Single c => emit c (run h Start r)
        | Multi st' => run h st' r
        | InvalidStart => on_error h (run h Start r)
        end in
      match st with
      | Start => restart
      | Cont n acc lo hi =>
          if (lo <=? b) && (b <=? hi) then
            let acc' := acc * 64 + Z.land b 0x3F in
            match n with
            | 1%nat => emit acc' (run h Start r)
            | _ => run h (Cont (Nat.pred n) acc' 0x80 0xBF) r
            end
          else                                      (* invalid continuation byte *)
            on_error h restart
      end
  end.

Definition decode (h : error_handler) (bs : list Byte.byte) : decoded :=
  run h Start (List.map byte_val bs).

End Utf8.

Module Utf16.

(** The 16-bit units of a byte sequence and whether a byte is left over. *)
Fixpoint units (little_endian : bool) (bs : list Z) : list Z * bool :=
  match bs with
  | [] => ([], false)
  | [_] => ([], true)
  | b0 :: b1 :: r =>
      let u := if little_endian then b0 + 256 * b1 else 256 * b0 + b1 in
      let '(us, odd) := units little_endian r in (u :: us, odd)
  end.

Definition is_high (u : Z) : bool := (0xD800 <=? u) && (u <=? 0xDBFF).
Definition is_low (u : Z) : bool := (0xDC00 <=? u) && (u <=? 0xDFFF).

Fixpoint pairs (h : error_handler) (us : list Z) : decoded :=
  match us with
  | [] => Ok []
  | u :: r =>
      if is_high u then
        match r with
        | [] => on_error h (Ok [])                  (* unexpected end of data *)
        | v :: r' =>
            if is_low v
            then emit (0x10000 + (u - 0xD800) * 0x400 + (v - 0xDC00)) (pairs h r')
            else on_error h (pairs h r)             (* illegal UTF-16 surrogate *)
        end
      else if is_low u then on_error h (pairs h r)  (* illegal encoding *)
      else emit u (pairs h r)
  end.

(** The text of a byte sequence in a known byte order. *)
Definition body (h : error_handler) (little_endian : bool) (bs : list Z) : decoded :=
  let '(us, odd) := units little_endian bs in
  result_bind (pairs h us) (fun s =>
  if odd then on_error h (Ok s) else Ok s).         (* truncated data *)

(** A byte order mark selects the byte order and is not part of the text.
    Without one the bytes are decoded in the order of the host
    (little-endian here) and, if there were two or more of them, the
    stream reader raises [UnicodeError]: the stream does not start with
    a mark. *)
Definition decode (h : error_handler) (bs : list Byte.byte) : decoded :=
  let zs := List.map byte_val bs in
  match zs with
  | 0xFF :: 0xFE :: r => body h true r
  | 0xFE :: 0xFF :: r => body h false r
  | _ :: _ :: _ => result_bind (body h true zs) (fun _ => Raise UnicodeError)
  | _ => body h true zs
  end.

End Utf16.

Module Latin1.

(** Every byte is the code point of the same value. *)
Definition decode (bs : list Byte.byte) : decoded := Ok (List.map byte_val bs).

End Latin1.

(** A file opened in text mode without a [newline] argument hands out
    [\r\n] and a lone [\r] as [\n]. *)
Fixpoint universal_newlines (s : text) : text :=
  match s with
  | [] => []
  | c :: r =>
      if c =? 13 then
        10 :: match r with
              | 10 :: r' => universal_newlines r'
              | _ => universal_newlines r
              end
      else c :: universal_newlines r
  end.

Definition decode_bytes (e : encoding) (h : error_handler) (bs : list Byte.byte) : decoded :=
  match e with
  | Utf8 => Utf8.decode h bs
  | Utf16 => Utf16.decode h bs
  | Latin1 => Latin1.decode bs
  end.

(** [open(path, encoding=e, errors=h).read()] on a file that holds [bs],
    as the Python runtime does it. *)
Definition py_read_text (e : encoding) (h : error_handler) (bs : list Byte.byte) : decoded :=
  result_bind (decode_bytes e h bs) (fun s => Ok (universal_newlines s)).

(** The read raised [UnicodeDecodeError]. *)
Definition decode_error (d : decoded) : bool :=
  match d with
  | Raise UnicodeDecodeError => true
  | _ => false
  end.

Definition is_ok {A} (r : result A) : bool :=
  match r with
  | Ok _ => true
  | Raise _ => false
  end.

(** ** JSON values and the Python operations applied to them *)

#[local] Set Warnings "-register-all".

(** A value built by a JSON parser. An object is a [dict] with [str] keys
    in insertion order; a key occurs once and lookup takes its first
    (only) binding. A float is given by its exact value; the values
    [NaN] and [Infinity], which are no JSON, are left out. *)
Inductive json :=
| JNull
| JBool (b : bool)
| JInt (n : Z)
| JFloat (q : Q)
| JStr (s : text)
| JArr (items : list json)
| JObj (fields : list (text * json)).

Definition dict := list (text * json).

Module Dict.

Fixpoint get (k : text) (d : dict) : option json :=
  match d with
  | [] => None
  | (k', v) :: r => if text_eqb k k' then Some v else get k r
  end.

(** [d[k] = v]: a key already present keeps its place, a new key goes to
    the end. *)
Fixpoint set (k : text) (v : json) (d : dict) : dict :=
  match d with
  | [] => [(k, v)]
  | (k', v') :: r => if text_eqb k k' then (k, v) :: r else (k', v') :: set k v r
  end.

(** [{**a, **b}]: the bindings of [a], then those of [b] entered one by
    one. *)
Definition merge (a b : dict) : dict :=
  fold_left (fun acc kv => set (fst kv) (snd kv) acc) b a.

Definition keys (d : dict) : list text := List.map fst d.

End Dict.

(** [v[k]] for a [str] key [k]. *)
Definition getitem (v : json) (k : text) : result json :=
  match v with
  | JObj d =>
      match Dict.get k d with
      | Some x => Ok x
      | None => Raise (KeyError k)
      end
  | _ => Raise TypeError
  end.

(** The elements that [for x in v] visits. *)
Definition iter (v : json) : result (list json) :=
  match v with
  | JArr items => Ok items
  | JObj d => Ok (List.map (fun kv => JStr (fst kv)) d)
  | JStr s => Ok (List.map (fun c => JStr [c]) s)
  | _ => Raise TypeError
  end.

Definition is_hashable (v : json) : bool :=
  match v with
  | JArr _ | JObj _ => false
  | _ => true
  end.

Definition number_of (v : json) : option Q :=
  match v with
  | JBool b => Some (if b then 1%Q else 0%Q)
  | JInt n => Some (inject_Z n)
  | JFloat q => Some q
  | _ => None
  end.

(** [a == b] on hashable values: numbers (and booleans) compare by value,
    strings by content, [None] equals itself only. *)
Definition py_eq (a b : json) : bool :=
  match a, b with
  | JNull, JNull => true
  | JStr s, JStr t => text_eqb s t
  | _, _ =>
      match number_of a, number_of b with
      | Some x, Some y => Qeq_bool x y
      | _, _ => false
      end
  end.

Module PySet.

(** A [set] is kept as the list of its elements in the order they were
    first added. *)
Definition t := list json.

Definition mem (x : json) (s : t) : bool := existsb (py_eq x) s.

(** [s.add(x)] for hashable [x]. *)
Definition add (x : json) (s : t) : t := if mem x s then s else s ++ [x].

(** [s.update(xs)]: add the elements in turn; an unhashable one raises. *)
Fixpoint update (s : t) (xs : list json) : result t :=
  match xs with
  | [] => Ok s
  | x :: r => if is_hashable x then update (add x s) r else Raise TypeError
  end.

End PySet.

(** [sep.join(xs)]: every element must be a [str]. *)
Fixpoint str_join (sep : text) (xs : list json) : result text :=
  match xs with
  | [] => Ok []
  | JStr s :: r =>
      match r with
      | [] => Ok s
      | _ :: _ => result_bind (str_join sep r) (fun t => Ok (s ++ sep ++ t))
      end
  | _ :: _ => Raise TypeError
  end.

(** ** The collaborators outside the program *)

(** What [json.dump] to a file opened as UTF-8 leaves behind: the whole
    document, or the part written before a character that cannot be
    encoded raised. *)
Inductive dump_outcome :=
| Dumped (bs : list Byte.byte)
| DumpFailed (partial : list Byte.byte).

Class Platform := {
  (** [open(path, encoding=e, errors=h)] and [read] on a file of the given
      bytes *)
  read_text : encoding -> error_handler -> list Byte.byte -> decoded;
  (** the language model behind [chain.invoke]: the content of its reply
      to a prompt ([None] when the call itself fails) and its next state *)
  llm_state : Type;
  llm_invoke : llm_state -> text -> option text * llm_state;
  (** [JsonOutputParser().parse]; [None] is [OutputParserException] *)
  output_parse : text -> option json;
  (** [json.load] on the decoded text; [None] is [json.JSONDecodeError] *)
  json_loads : text -> option json;
  (** [json.dump(v, outfile, ensure_ascii=False, indent=4)] *)
  json_dump : json -> dump_outcome;
  (** the order in which a [set] is iterated: some arrangement of its
      elements *)
  set_order : PySet.t -> list json;
  set_order_perm : forall s, Permutation (set_order s) s
}.

(** ** The state of a run *)

Record World `{Platform} := {
  files : gmap text (list Byte.byte);    (* the file system *)
  writable : text -> bool;               (* paths that can be opened for writing *)
  stdout : list text;                    (* the lines printed so far *)
  llm : llm_state                        (* the language model *)
}.

Section Program.

Context `{P : Platform}.

(** A statement: it runs in a world, returns or raises, and leaves a
    world. *)
Definition M (A : Type) : Type := World -> result A * World.

Definition ret {A} (a : A) : M A := fun w => (Ok a, w).

Definition raise {A} (e : exn) : M A := fun w => (Raise e, w).

Definition bind {A B} (c : M A) (k : A -> M B) : M B :=
  fun w =>
    match c w with
    | (Ok a, w') => k a w'
    | (Raise e, w') => (Raise e, w')
    end.

Definition lift {A} (r : result A) : M A := fun w => (r, w).

End Program.

Notation "'let*' x ':=' c 'in' k" := (bind c (fun x => k))
  (at level 10, x name, c at level 100, k at level 200).

(** ** Prompt templates

    [PromptTemplate.from_template] reads a format string: text with named
    slots, where a doubled brace stands for one brace. A template is kept
    as its pieces, braces already single. *)

Inductive piece :=
| Chunk (s : text)
| Slot (name : text).

Definition template := list piece.

(** [template.format] with keyword arguments [inputs]; a slot without an
    input raises. *)
Fixpoint format (t : template) (inputs : list (text * text)) : result text :=
  match t with
  | [] => Ok []
  | Chunk s :: r => result_bind (format r inputs) (fun rest => Ok (s ++ rest))
  | Slot name :: r =>
      match List.find (fun kv => text_eqb name (fst kv)) inputs with
      | Some kv => result_bind (format r inputs) (fun rest => Ok (snd kv ++ rest))
      | None => Raise (KeyError name)
      end
  end.

(** The template of [extract_metadata] (lines 20-29). *)
Definition extract_template : template :=
  [ Chunk (lit "
    You are given a LinkedIn post. You need to extract number of lines, language of the post and tags.
    1. Return a valid JSON. No preamble. 
    2. JSON object should have exactly three keys: line_count, language and tags. 
    3. tags is an array of text tags. Extract maximum two tags.
    4. Language should be English or Hinglish (Hinglish means hindi + english)

    Here is the actual post on which you need to perform this task:  
    ");
    Slot (lit "post");
    Chunk (lit "
    ") ].

(** The template of [get_unified_tags] (lines 47-60). *)
Definition unify_template : template :=
  [ Chunk (concat
      [ lit "I will give you a list of tags. You need to unify tags with the following requirements:
    1. Tags are unified and merged to create a shorter list. 
       Example 1: ";
        quoted "Jobseekers";
        lit ", ";
        quoted "Job Hunting";
        lit " can be all merged into a single tag ";
        quoted "Job Search";
        lit ". 
       Example 2: ";
        quoted "Motivation";
        lit ", ";
        quoted "Inspiration";
        lit ", ";
        quoted "Drive";
        lit " can be mapped to ";
        quoted "Motivation";
        lit "
       Example 3: ";
        quoted "Personal Growth";
        lit ", ";
        quoted "Personal Development";
        lit ", ";
        quoted "Self Improvement";
        lit " can be mapped to ";
        quoted "Self Improvement";
        lit "
       Example 4: ";
        quoted "Scam Alert";
        lit ", ";
        quoted "Job Scam";
        lit " etc. can be mapped to ";
        quoted "Scams";
        lit "
    2. Each tag should be follow title case convention. example: ";
        quoted "Motivation";
        lit ", ";
        quoted "Job Search";
        lit "
    3. Output should be a JSON object, No preamble
    3. Output should have mapping of original tag and the unified tag. 
       For example: {";
        quoted "Jobseekers";
        lit ": ";
        quoted "Job Search";
        lit ",  ";
        quoted "Job Hunting";
        lit ": ";
        quoted "Job Search";
        lit ", ";
        quoted "Motivation";
        lit ": ";
        quoted "Motivation";
        lit "}

    Here is the list of tags: 
    " ]);
    Slot (lit "tags");
    Chunk (lit "
    ") ].

(** ** The program *)

Section Source.

Context `{P : Platform}.

(** *** Primitive statements *)

Definition with_llm (s : llm_state) (w : World) : World :=
  {| files := files w; writable := writable w; stdout := stdout w; llm := s |}.

Definition with_stdout (out : list text) (w : World) : World :=
  {| files := files w; writable := writable w; stdout := out; llm := llm w |}.

Definition with_files (fs : gmap text (list Byte.byte)) (w : World) : World :=
  {| files := fs; writable := writable w; stdout := stdout w; llm := llm w |}.

(** [print(line)] *)
Definition print (line : text) : M unit :=
  fun w => (Ok tt, with_stdout (stdout w ++ [line]) w).

(** [chain.invoke(...)] on the formatted prompt, then [.content]. *)
Definition invoke (prompt : text) : M text :=
  fun w =>
    match llm_invoke (llm w) prompt with
    | (Some content, s) => (Ok content, with_llm s w)
    | (None, s) => (Raise LLMError, with_llm s w)
    end.

(** The bytes of a file opened for reading; a missing file raises. *)
Definition read_bytes (path : text) : M (list Byte.byte) :=
  fun w =>
    match files w !! path with
    | Some bs => (Ok bs, w)
    | None => (Raise OSError, w)
    end.

(** *** extract_metadata (lines 19-39) *)

Definition extract_metadata (post : text) : M json :=
  let* prompt := lift (format extract_template [(lit "post", post)]) in
  let* response := invoke prompt in
  match output_parse response with
  | Some res => ret res
  | None => raise (OutputParserException (lit "Context is too big, unable to process"))
  end.

(** *** get_unified_tags (lines 41-70) *)

(** Lines 42-44: the loop that fills [unique_tags]. *)
Fixpoint collect_tags (unique_tags : PySet.t) (posts_with_metadata : list dict)
  : result PySet.t :=
  match posts_with_metadata with
  | [] => Ok unique_tags
  | post :: rest =>
      result_bind (getitem (JObj post) (lit "tags")) (fun tags =>
      result_bind (iter tags) (fun items =>
      result_bind (PySet.update unique_tags items) (fun unique_tags' =>
      collect_tags unique_tags' rest)))
  end.

Definition get_unified_tags (posts_with_metadata : list dict) : M json :=
  let* unique_tags := lift (collect_tags [] posts_with_metadata) in
  let* unique_tags_list := lift (str_join (lit ",") (set_order unique_tags)) in
  let* prompt := lift (format unify_template [(lit "tags", unique_tags_list)]) in
  let* response := invoke prompt in
  match output_parse response with
  | Some res => ret res
  | None => raise (OutputParserException (lit "Context is too big, unable to process"))
  end.

(** *** process_posts (lines 72-104) *)

(** Line 75. *)
Definition encodings : list encoding := [Utf8; Utf16; Latin1].

(** Lines 76-88: the [for]/[else] loop over the encodings. [None] stands
    for the two [return] statements, [Some posts] for [break]. *)
Fixpoint load_loop (raw_file_path : text) (encs : list encoding) : M (option json) :=
  match encs with
  | [] =>
      let* _ := print (lit "Error: Unable to read the file with available encodings.") in
      ret None
  | encoding :: rest =>
      let* bs := read_bytes raw_file_path in
      match read_text encoding Ignore bs with
      | Raise UnicodeDecodeError =>
          let* _ := print (lit "Error: Cannot decode file with " ++ encoding_name encoding
                           ++ lit ". Trying next encoding.") in
          load_loop raw_file_path rest
      | Raise e => raise e
      | Ok s =>
          match json_loads s with
          | Some posts => ret (Some posts)
          | None =>
              let* _ := print (lit "Error: The file could not be decoded as JSON.") in
              ret None
          end
      end
  end.

Definition load_batch (raw_file_path : text) : M (option json) :=
  load_loop raw_file_path encodings.

(** [post[k] = v] *)
Definition setitem (post : json) (k : text) (v : json) : result dict :=
  match post with
  | JObj d => Ok (Dict.set k v d)
  | _ => Raise TypeError
  end.

(** [re.sub] wants a [str]. *)
Definition remove_emoji_value (v : json) : result text :=
  match v with
  | JStr s => Ok (remove_emoji s)
  | _ => Raise TypeError
  end.

(** [{**post, **metadata}]: [metadata] must be a mapping. *)
Definition merge_metadata (post : dict) (metadata : json) : result dict :=
  match metadata with
  | JObj md => Ok (Dict.merge post md)
  | _ => Raise TypeError
  end.

(** Lines 91-93: the body of the first loop, for one post. *)
Definition enrich_post (post : json) : M dict :=
  let* raw_text := lift (getitem post (lit "text")) in
  let* cleaned := lift (remove_emoji_value raw_text) in
  let* post' := lift (setitem post (lit "text") (JStr cleaned)) in
  let* metadata := extract_metadata cleaned in
  lift (merge_metadata post' metadata).

(** Lines 90-94: the posts in order, each appended to [enriched_posts]. *)
Fixpoint enrich_posts (posts : list json) : M (list dict) :=
  match posts with
  | [] => ret []
  | post :: rest =>
      let* post_with_metadata := enrich_post post in
      let* enriched_rest := enrich_posts rest in
      ret (post_with_metadata :: enriched_rest)
  end.

(** [unified_tags.get(tag, tag)] *)
Definition get_or_same (unified_tags : json) (tag : json) : result json :=
  match unified_tags with
  | JObj d =>
      match tag with
      | JStr s => Ok (default tag (Dict.get s d))
      | JArr _ | JObj _ => Raise TypeError
      | _ => Ok tag
      end
  | _ => Raise AttributeError
  end.

(** Line 100: the set comprehension, one tag after the other. *)
Fixpoint map_tags (unified_tags : json) (new_tags : PySet.t) (current_tags : list json)
  : result PySet.t :=
  match current_tags with
  | [] => Ok new_tags
  | tag :: rest =>
      result_bind (get_or_same unified_tags tag) (fun v =>
      if is_hashable v then map_tags unified_tags (PySet.add v new_tags) rest
      else Raise TypeError)
  end.

(** Lines 99-101: the body of the second loop, for one post. *)
Definition rewrite_post (unified_tags : json) (post : dict) : result dict :=
  result_bind (getitem (JObj post) (lit "tags")) (fun current_tags =>
  result_bind (iter current_tags) (fun tags =>
  result_bind (map_tags unified_tags [] tags) (fun new_tags =>
  Ok (Dict.set (lit "tags") (JArr (set_order new_tags)) post)))).

(** Lines 98-101. *)
Fixpoint rewrite_posts (unified_tags : json) (enriched_posts : list dict)
  : result (list dict) :=
  match enriched_posts with
  | [] => Ok []
  | post :: rest =>
      result_bind (rewrite_post unified_tags post) (fun post' =>
      result_bind (rewrite_posts unified_tags rest) (fun rest' =>
      Ok (post' :: rest')))
  end.

(** Lines 103-104: the file is opened for writing, which empties it, and
    the document is written into it. *)
Definition write_batch (processed_file_path : text) (enriched_posts : list dict) : M unit :=
  fun w =>
    if writable w processed_file_path then
      match json_dump (JArr (List.map JObj enriched_posts)) with
      | Dumped bs =>
          (Ok tt, with_files (<[processed_file_path := bs]> (files w)) w)
      | DumpFailed partial =>
          (Raise UnicodeEncodeError,
           with_files (<[processed_file_path := partial]> (files w)) w)
      end
    else (Raise OSError, w).

(** Lines 73-101: everything that comes before the output file is opened.
    [None]: the loader printed its message and the function returned. *)
Definition enrich_batch (raw_file_path : text) : M (option (list dict)) :=
  let* loaded := load_batch raw_file_path in
  match loaded with
  | None => ret None
  | Some posts =>
      let* items := lift (iter posts) in
      let* enriched_posts := enrich_posts items in
      let* unified_tags := get_unified_tags enriched_posts in
      let* rewritten := lift (rewrite_posts unified_tags enriched_posts) in
      ret (Some rewritten)
  end.

Definition process_posts (raw_file_path processed_file_path : text) : M unit :=
  let* batch := enrich_batch raw_file_path in
  match batch with
  | None => ret tt
  | Some enriched_posts => write_batch processed_file_path enriched_posts
  end.

(** The default value of [processed_file_path]. *)
Definition default_processed_file_path : text := lit "data/processed_posts.json".

(** Lines 106-107: the script run as a program. *)
Definition main : M unit :=
  process_posts (lit "data/raw_posts.json") (lit "data/processed_posts.json").

End Source.

(** ** Vocabulary of the statements *)

(** [set(xs)] for hashable elements. *)
Definition set_of_list (xs : list json) : PySet.t :=
  fold_left (fun s x => PySet.add x s) xs [].

(** No element of the set equals an earlier one. *)
Fixpoint distinct (s : PySet.t) : Prop :=
  match s with
  | [] => True
  | a :: r => (forall b, In b r -> py_eq b a = false) /\ distinct r
  end.

(** The tag that the mapping [tag_map] gives for [t]: its value for [t],
    or [t] itself when [t] is not one of its keys. *)
Definition renamed (tag_map : dict) (t : text) : json :=
  default (JStr t) (Dict.get t tag_map).

(** A statement that leaves the file system as it found it. *)
Definition keeps_files `{Platform} {A} (c : M A) : Prop :=
  forall w, files (snd (c w)) = files w /\ writable (snd (c w)) = writable w.

(** A statement that changes nothing but the state of the language model,
    and one that changes nothing but the lines printed. *)
Definition only_llm `{Platform} {A} (c : M A) : Prop :=
  forall w, exists s, snd (c w) = with_llm s w.

Definition only_stdout `{Platform} {A} (c : M A) : Prop :=
  forall w, exists out, snd (c w) = with_stdout out w.

(** The lines that the loader prints (lines 82, 84 and 87). *)
Definition cannot_decode (e : encoding) : text :=
  lit "Error: Cannot decode file with " ++ encoding_name e ++ lit ". Trying next encoding.".

Definition not_json : text := lit "Error: The file could not be decoded as JSON.".

Definition unable_to_read : text :=
  lit "Error: Unable to read the file with available encodings.".

(** The three fields that the prompt of [extract_metadata] asks for. *)
Definition metadata_keys : list text := [lit "line_count"; lit "language"; lit "tags"].

Definition has_key (k : text) (d : dict) : bool :=
  match Dict.get k d with
  | Some _ => true
  | None => false
  end.

Definition has_metadata (post : dict) : bool := forallb (fun k => has_key k post) metadata_keys.

(** [out] is what the program makes of the input post [item] when the
    unifier answered [unified]: the post with its text cleaned, merged
    with the metadata some reply of the model parsed to, its tags
    rewritten. *)
Definition enrichment_of `{Platform} (unified : json) (item : json) (out : dict) : Prop :=
  exists d s md,
    item = JObj d
    /\ Dict.get (lit "text") d = Some (JStr s)
    /\ (exists wa wb, extract_metadata (remove_emoji s) wa = (Ok (JObj md), wb))
    /\ rewrite_post unified
         (Dict.merge (Dict.set (lit "text") (JStr (remove_emoji s)) d) md) = Ok out.

(** The prompt that [extract_metadata] sends for a post, and the one that
    [get_unified_tags] sends for a joined list of tags. *)
Definition extract_prompt (post : text) : text :=
  match format extract_template [(lit "post", post)] with
  | Ok prompt => prompt
  | Raise _ => []
  end.

Definition unify_prompt (tags : text) : text :=
  match format unify_template [(lit "tags", tags)] with
  | Ok prompt => prompt
  | Raise _ => []
  end.

(** The platform [P] with a language model that also keeps the list of
    the prompts it was sent, oldest first. *)
Definition logging (P : Platform) : Platform := {|
  read_text := @read_text P;
  llm_state := (@llm_state P * list text)%type;
  llm_invoke := fun st prompt =>
    let '(reply, s) := @llm_invoke P (fst st) prompt in
    (reply, (s, snd st ++ [prompt]));
  output_parse := @output_parse P;
  json_loads := @json_loads P;
  json_dump := @json_dump P;
  set_order := @set_order P;
  set_order_perm := @set_order_perm P
|}.

(** The prompts sent so far in a world of [logging P]. *)
Definition prompts_sent {P : Platform} (w : @World (logging P)) : list text :=
  snd (@llm (logging P) w).

(** ** A platform for the examples

    A language model that reads its replies from a script, parsers that
    know the documents of the examples, a writer for the values those
    documents hold, and sets iterated in insertion order. *)

Module Example.

(** A JSON text of an example, written with ['] where the text has the
    double quote. *)
Definition js (s : string) : text :=
  List.map (fun c => if c =? 39 then dquote else c) (lit s).

(** UTF-8 for one character; surrogates and values out of range have
    none. *)
Definition encode_char (c : codepoint) : option (list Z) :=
  if c <? 0 then None
  else if c <? 0x80 then Some [c]
  else if c <? 0x800 then Some [0xC0 + c / 64; 0x80 + c mod 64]
  else if (0xD800 <=? c) && (c <=? 0xDFFF) then None
  else if c <? 0x10000 then
    Some [0xE0 + c / 4096; 0x80 + (c / 64) mod 64; 0x80 + c mod 64]
  else if c <? 0x110000 then
    Some [0xF0 + c / 262144; 0x80 + (c / 4096) mod 64; 0x80 + (c / 64) mod 64;
          0x80 + c mod 64]
  else None.

Definition to_byte (z : Z) : Byte.byte :=
  match Byte.of_N (Z.to_N z) with
  | Some b => b
  | None => Byte.x00
  end.

(** The bytes written for [s]; writing stops at a character that cannot
    be encoded. *)
Fixpoint encode (s : text) : dump_outcome :=
  match s with
  | [] => Dumped []
  | c :: r =>
      match encode_char c with
      | None => DumpFailed []
      | Some bs =>
          match encode r with
          | Dumped t => Dumped (List.map to_byte bs ++ t)
          | DumpFailed t => DumpFailed (List.map to_byte bs ++ t)
          end
      end
  end.

Definition bytes_of (s : text) : list Byte.byte :=
  match encode s with
  | Dumped bs => bs
  | DumpFailed bs => bs
  end.

Definition hex_digit (n : Z) : codepoint := if n <? 10 then 48 + n else 87 + n.

(** A character inside a JSON string, non-ASCII characters as they are. *)
Definition escape (c : codepoint) : text :=
  if c =? 34 then lit "\" ++ [dquote]
  else if c =? 92 then lit "\\"
  else if c =? 10 then lit "\n"
  else if c =? 13 then lit "\r"
  else if c =? 9 then lit "\t"
  else if c =? 8 then lit "\b"
  else if c =? 12 then lit "\f"
  else if c <? 32 then lit "\u00" ++ [hex_digit (c / 16); hex_digit (c mod 16)]
  else [c].

Definition render_str (s : text) : text :=
  dquote :: List.concat (List.map escape s) ++ [dquote].

Definition render_int (n : Z) : text := lit (DecimalString.NilEmpty.string_of_int (Z.to_int n)).

Definition indentation (level : nat) : text := List.repeat 32 (4 * level).

(** [json.dumps(v, ensure_ascii=False, indent=4)] for values without
    floats. *)
Fixpoint render (level : nat) (v : json) : option text :=
  match v with
  | JNull => Some (lit "null")
  | JBool b => Some (lit (if b then "true" else "false"))
  | JInt n => Some (render_int n)
  | JFloat _ => None
  | JStr s => Some (render_str s)
  | JArr [] => Some (lit "[]")
  | JArr (x :: xs) =>
      let fix items (xs : list json) : option text :=
        match xs with
        | [] => Some []
        | y :: ys =>
            match render (S level) y, items ys with
            | Some t, Some r => Some (lit "," ++ [10] ++ indentation (S level) ++ t ++ r)
            | _, _ => None
            end
        end in
      match render (S level) x, items xs with
      | Some t, Some r =>
          Some (lit "[" ++ [10] ++ indentation (S level) ++ t ++ r
                ++ [10] ++ indentation level ++ lit "]")
      | _, _ => None
      end
  | JObj [] => Some (lit "{}")
  | JObj ((k, x) :: kvs) =>
      let fix fields (kvs : list (text * json)) : option text :=
        match kvs with
        | [] => Some []
        | (k', y) :: r =>
            match render (S level) y, fields r with
            | Some t, Some r' =>
                Some (lit "," ++ [10] ++ indentation (S level) ++ render_str k' ++ lit ": "
                      ++ t ++ r')
            | _, _ => None
            end
        end in
      match render (S level) x, fields kvs with
      | Some t, Some r =>
          Some (lit "{" ++ [10] ++ indentation (S level) ++ render_str k ++ lit ": " ++ t ++ r
                ++ [10] ++ indentation level ++ lit "}")
      | _, _ => None
      end
  end.

Definition dump (v : json) : dump_outcome :=
  match render 0 v with
  | Some s => encode s
  | None => DumpFailed []
  end.

(** The language model answers with the next line of its script; at the
    end of the script the call fails. *)
Definition scripted (script : list text) (prompt : text) : option text * list text :=
  match script with
  | reply :: rest => (Some reply, rest)
  | [] => (None, [])
  end.

(** The documents of the examples and the values they parse to. *)

Definition two_posts_text : text :=
  js "[{'text': 'Open to work " ++ [0x1F600; 0x1F680] ++ js "', 'likes': 7}, {'text': 'Still hunting'}]".

Definition two_posts : json :=
  JArr [ JObj [ (lit "text", JStr (lit "Open to work " ++ [0x1F600; 0x1F680]));
                (lit "likes", JInt 7) ];
         JObj [ (lit "text", JStr (lit "Still hunting")) ] ].

Definition reply_a : text :=
  js "{'line_count': 1, 'language': 'English', 'tags': ['Jobseekers']}".

Definition metadata_a : json :=
  JObj [ (lit "line_count", JInt 1); (lit "language", JStr (lit "English"));
         (lit "tags", JArr [JStr (lit "Jobseekers")]) ].

Definition reply_b : text :=
  js "{'line_count': 1, 'language': 'English', 'tags': ['Job Hunting']}".

Definition metadata_b : json :=
  JObj [ (lit "line_count", JInt 1); (lit "language", JStr (lit "English"));
         (lit "tags", JArr [JStr (lit "Job Hunting")]) ].

Definition reply_unified : text :=
  js "{'Jobseekers': 'Job Search', 'Job Hunting': 'Job Search'}".

Definition unified : json :=
  JObj [ (lit "Jobseekers", JStr (lit "Job Search"));
         (lit "Job Hunting", JStr (lit "Job Search")) ].

Definition reply_tags_only : text := js "{'tags': []}".

Definition tags_only : json := JObj [ (lit "tags", JArr []) ].

Definition reply_empty_map : text := js "{}".

Definition reply_extra : text :=
  js "{'line_count': 1, 'language': 'English', 'tags': [], 'mood': 'upbeat'}".

Definition metadata_extra : json :=
  JObj [ (lit "line_count", JInt 1); (lit "language", JStr (lit "English"));
         (lit "tags", JArr []); (lit "mood", JStr (lit "upbeat")) ].

(** A reply that is no JSON at all. *)
Definition refusal : text := lit "I cannot help with that.".

Definition one_post_text : text := js "[{'text': 'Hello'}]".

Definition one_post : json := JArr [ JObj [ (lit "text", JStr (lit "Hello")) ] ].

Definition documents : list (text * json) :=
  [ (two_posts_text, two_posts);
    (one_post_text, one_post);
    (reply_a, metadata_a);
    (reply_b, metadata_b);
    (reply_unified, unified);
    (reply_tags_only, tags_only);
    (reply_empty_map, JObj []);
    (reply_extra, metadata_extra) ].

Definition parse (s : text) : option json :=
  option_map snd (List.find (fun d => text_eqb s (fst d)) documents).

(** The collaborators of the examples on a runtime that reads text as
    [reader] does. *)
Definition platform_with
    (reader : encoding -> error_handler -> list Byte.byte -> decoded) : Platform := {|
  read_text := reader;
  llm_state := list text;
  llm_invoke := scripted;
  output_parse := parse;
  json_loads := parse;
  json_dump := dump;
  set_order := fun s => s;
  set_order_perm := fun s => Permutation_refl s
|}.

(** The Python runtime. *)
#[local] Instance platform : Platform := platform_with py_read_text.

Definition raw_path : text := lit "data/raw_posts.json".

(** A world with one input file and a script for the language model. *)
Definition world_on (reader : encoding -> error_handler -> list Byte.byte -> decoded)
    (content : list Byte.byte) (script : list text) : @World (platform_with reader) :=
  @Build_World (platform_with reader) {[ raw_path := content ]} (fun _ => true) [] script.

Definition world (content : list Byte.byte) (script : list text) : @World platform :=
  world_on py_read_text content script.

End Example.

(** The bytes of a text of the basic plane in UTF-16, little-endian,
    behind the byte order mark. *)
Definition utf16_file (s : text) : list Byte.byte :=
  Byte.xff :: Byte.xfe
  :: List.flat_map (fun c => [Example.to_byte (c mod 256); Example.to_byte (c / 256)]) s.

(** * Properties *)

(** ** Tactics *)

(** Evaluates the left-hand side of an equation and gives the result to
    the right-hand side. *)
Ltac run_lhs :=
  lazymatch goal with
  | |- ?lhs = ?rhs =>
      let v := eval vm_compute in lhs in
      unify rhs v; reflexivity
  end.

(** ** The emoji filter *)

Lemma skip_run_filter cls s :
  List.filter (fun c => negb (cls c)) (skip_run cls s)
  = List.filter (fun c => negb (cls c)) s.
Proof.
  induction s as [|c r IH]; simpl; [reflexivity|].
  destruct (cls c) eqn:E; simpl; [exact IH|].
  rewrite E. reflexivity.
Qed.

(** Substituting the empty string for every run keeps exactly the
    characters outside the class. *)
Lemma re_sub_empty_filter cls s :
  re_sub_empty cls s = List.filter (fun c => negb (cls c)) s.
Proof.
  funelim (re_sub_empty cls s); simp re_sub_empty.
  - reflexivity.
  - simpl. rewrite Heq. simpl.
    match goal with IH : re_sub_empty _ _ = List.filter _ _ |- _ => rewrite IH end.
    apply skip_run_filter.
  - simpl. rewrite Heq. simpl. f_equal.
    match goal with IH : re_sub_empty _ _ = List.filter _ _ |- _ => exact IH end.
Qed.

Lemma filter_all_true {A} (p : A -> bool) (l : list A) :
  Forall (fun x => p x = true) l -> List.filter p l = l.
Proof.
  induction 1 as [|x l Hx _ IH]; simpl; [reflexivity|].
  rewrite Hx, IH. reflexivity.
Qed.

Lemma filter_filter_same {A} (p : A -> bool) (l : list A) :
  List.filter p (List.filter p l) = List.filter p l.
Proof.
  induction l as [|x l IH]; simpl; [reflexivity|].
  destruct (p x) eqn:E; simpl; [rewrite E, IH|]; auto.
Qed.

(** C8. On a string all of whose characters lie outside the six ranges of
    the pattern, [remove_emoji] returns the string unchanged. *)
Theorem remove_emoji_plain_identity (s : text) :
  Forall (fun c => Emoji.in_class c = false) s -> remove_emoji s = s.
Proof.
  intros H. unfold remove_emoji. rewrite re_sub_empty_filter.
  apply filter_all_true.
  eapply Forall_impl; [exact H|].
  intros c Hc. simpl in Hc. rewrite Hc. reflexivity.
Qed.

Lemma remove_emoji_plain_identity_witness :
  Forall (fun c => Emoji.in_class c = false) (lit "Great day!")
  /\ remove_emoji (lit "Great day!") = lit "Great day!".
Proof.
  assert (H : Forall (fun c => Emoji.in_class c = false) (lit "Great day!")).
  { repeat constructor. }
  split; [exact H | exact (remove_emoji_plain_identity _ H)].
Defined.

(** C9. [remove_emoji] is idempotent. *)
Theorem remove_emoji_idempotent (s : text) :
  remove_emoji (remove_emoji s) = remove_emoji s.
Proof.
  unfold remove_emoji. rewrite !re_sub_empty_filter.
  apply filter_filter_same.
Qed.

(** ** The ['ignore'] handler never raises [UnicodeDecodeError] *)

Lemma emit_is_ok c d : is_ok (emit c d) = is_ok d.
Proof. destruct d; reflexivity. Qed.

Lemma utf8_run_ignore st bs : is_ok (Utf8.run Ignore st bs) = true.
Proof.
  revert st. induction bs as [|b r IH]; intros st.
  - destruct st; reflexivity.
  - assert (R : is_ok
        match Utf8.first b with
        | Utf8.Single c => emit c (Utf8.run Ignore Utf8.Start r)
        | Utf8.Multi st' => Utf8.run Ignore st' r
        | Utf8.InvalidStart => on_error Ignore (Utf8.run Ignore Utf8.Start r)
        end = true).
    { destruct (Utf8.first b); simpl; rewrite ?emit_is_ok; apply IH. }
    destruct st as [|n acc lo hi]; simpl; [exact R|].
    destruct ((lo <=? b) && (b <=? hi))%bool; [|exact R].
    destruct n as [|[|n]]; rewrite ?emit_is_ok; apply IH.
Qed.

Lemma utf8_decode_ignore bs : exists s, Utf8.decode Ignore bs = Ok s.
Proof.
  unfold Utf8.decode. pose proof (utf8_run_ignore Utf8.Start (List.map byte_val bs)) as H.
  destruct (Utf8.run _ _ _) as [s|]; [eauto|discriminate].
Qed.

Lemma utf16_pairs_ignore us : is_ok (Utf16.pairs Ignore us) = true.
Proof.
  assert (H : forall n us, (length us <= n)%nat ->
                is_ok (Utf16.pairs Ignore us) = true).
  { induction n as [|n IH]; intros [|u r] Hn; try reflexivity; simpl in Hn; [lia|].
    simpl. destruct (Utf16.is_high u).
    - destruct r as [|v r']; [reflexivity|]. simpl in Hn.
      destruct (Utf16.is_low v); rewrite ?emit_is_ok; apply IH; simpl; lia.
    - destruct (Utf16.is_low u); rewrite ?emit_is_ok; apply IH; simpl; lia. }
  exact (H (length us) us (Nat.le_refl _)).
Qed.

Lemma utf16_body_ignore le bs : is_ok (Utf16.body Ignore le bs) = true.
Proof.
  unfold Utf16.body. destruct (Utf16.units le bs) as [us odd].
  pose proof (utf16_pairs_ignore us) as H.
  destruct (Utf16.pairs Ignore us); [|discriminate].
  destruct odd; reflexivity.
Qed.

Lemma utf16_decode_ignore bs : decode_error (Utf16.decode Ignore bs) = false.
Proof.
  unfold Utf16.decode.
  assert (B : forall le zs, decode_error (Utf16.body Ignore le zs) = false).
  { intros le zs. pose proof (utf16_body_ignore le zs) as H.
    destruct (Utf16.body Ignore le zs); [reflexivity|discriminate]. }
  assert (E : forall zs, decode_error
             (result_bind (Utf16.body Ignore true zs) (fun _ => Raise UnicodeError)) = false).
  { intros zs. destruct (Utf16.body Ignore true zs) as [?|e] eqn:Hb; [reflexivity|].
    pose proof (utf16_body_ignore true zs) as H. rewrite Hb in H. discriminate. }
  repeat (match goal with |- context [match ?x with _ => _ end] => destruct x end;
          try apply B; try apply E).
Qed.

(** Whatever the encoding, reading with ['ignore'] does not raise
    [UnicodeDecodeError]. *)
Lemma py_read_text_ignore e bs : decode_error (py_read_text e Ignore bs) = false.
Proof.
  unfold py_read_text.
  assert (H : decode_error (decode_bytes e Ignore bs) = false).
  { destruct e; simpl.
    - destruct (utf8_decode_ignore bs) as [s ->]. reflexivity.
    - apply utf16_decode_ignore.
    - reflexivity. }
  destruct (decode_bytes e Ignore bs) as [s|[]]; try reflexivity; discriminate.
Qed.

Section Monad_facts.

Context `{P : Platform}.

Lemma bind_ok {A B} (c : M A) (k : A -> M B) w a w1 :
  c w = (Ok a, w1) -> bind c k w = k a w1.
Proof. intros H. unfold bind. rewrite H. reflexivity. Qed.

Lemma bind_raise {A B} (c : M A) (k : A -> M B) w e w1 :
  c w = (Raise e, w1) -> bind c k w = (Raise e, w1).
Proof. intros H. unfold bind. rewrite H. reflexivity. Qed.

Lemma bind_inv {A B} (c : M A) (k : A -> M B) w r w' :
  bind c k w = (r, w') ->
  (exists a w1, c w = (Ok a, w1) /\ k a w1 = (r, w'))
  \/ (exists e, c w = (Raise e, w') /\ r = Raise e).
Proof.
  unfold bind. destruct (c w) as [[a|e] w1]; intros H.
  - left. eauto.
  - right. inversion H; subst. eauto.
Qed.

Lemma bind_ok_inv {A B} (c : M A) (k : A -> M B) w b w' :
  bind c k w = (Ok b, w') ->
  exists a w1, c w = (Ok a, w1) /\ k a w1 = (Ok b, w').
Proof.
  intros H. apply bind_inv in H as [H|[e [_ H]]]; [exact H|discriminate].
Qed.

Lemma lift_ok_inv {A} (r : result A) w a w' :
  lift r w = (Ok a, w') -> r = Ok a /\ w' = w.
Proof. unfold lift. intros H. inversion H; subst. split; reflexivity. Qed.

Lemma ret_inv {A} (a : A) w r w' : ret a w = (r, w') -> r = Ok a /\ w' = w.
Proof. unfold ret. intros H. inversion H; subst. split; reflexivity. Qed.

Lemma keeps_ret {A} (a : A) : keeps_files (ret a).
Proof. intros w. split; reflexivity. Qed.

Lemma keeps_raise {A} e : keeps_files (@raise _ A e).
Proof. intros w. split; reflexivity. Qed.

Lemma keeps_lift {A} (r : result A) : keeps_files (lift r).
Proof. intros w. split; reflexivity. Qed.

Lemma keeps_print line : keeps_files (print line).
Proof. intros w. split; reflexivity. Qed.

Lemma keeps_invoke prompt : keeps_files (invoke prompt).
Proof.
  intros w. unfold invoke. destruct (llm_invoke (llm w) prompt) as [[c|] s]; split; reflexivity.
Qed.

Lemma keeps_read_bytes path : keeps_files (read_bytes path).
Proof.
  intros w. unfold read_bytes. destruct (files w !! path); split; reflexivity.
Qed.

Lemma keeps_bind {A B} (c : M A) (k : A -> M B) :
  keeps_files c -> (forall a, keeps_files (k a)) -> keeps_files (bind c k).
Proof.
  intros Hc Hk w. unfold bind. specialize (Hc w).
  destruct (c w) as [[a|e] w1]; simpl in *.
  - destruct (Hk a w1) as [H1 H2]. destruct Hc as [H3 H4].
    split; congruence.
  - exact Hc.
Qed.

End Monad_facts.

(** One step in showing that a statement keeps the files. *)
Ltac keeps_step :=
  first [ apply keeps_bind; [|intros ?]
        | apply keeps_ret | apply keeps_raise | apply keeps_lift | apply keeps_print
        | apply keeps_invoke | apply keeps_read_bytes
        | match goal with
          | |- keeps_files (match ?x with _ => _ end) => destruct x
          end ].

Section File_system.

Context `{P : Platform}.

Lemma keeps_extract_metadata post : keeps_files (extract_metadata post).
Proof. unfold extract_metadata. repeat keeps_step. Qed.

Lemma keeps_get_unified_tags posts : keeps_files (get_unified_tags posts).
Proof. unfold get_unified_tags. repeat keeps_step. Qed.

Lemma keeps_load_loop path encs : keeps_files (load_loop path encs).
Proof.
  induction encs as [|e rest IH]; simpl.
  - repeat keeps_step.
  - apply keeps_bind; [apply keeps_read_bytes|]. intros bs.
    destruct (read_text e Ignore bs) as [s|[]]; try apply keeps_raise.
    + destruct (json_loads s); repeat keeps_step.
    + apply keeps_bind; [apply keeps_print|]. intros _. exact IH.
Qed.

Lemma keeps_enrich_post post : keeps_files (enrich_post post).
Proof.
  unfold enrich_post.
  repeat (apply keeps_bind; [auto using keeps_lift, keeps_extract_metadata|intros ?]).
  apply keeps_lift.
Qed.

Lemma keeps_enrich_posts posts : keeps_files (enrich_posts posts).
Proof.
  induction posts as [|p rest IH]; simpl; [apply keeps_ret|].
  apply keeps_bind; [apply keeps_enrich_post|]. intros e.
  apply keeps_bind; [exact IH|]. intros r. apply keeps_ret.
Qed.

Lemma keeps_enrich_batch path : keeps_files (enrich_batch path).
Proof.
  unfold enrich_batch, load_batch.
  apply keeps_bind; [apply keeps_load_loop|]. intros [posts|]; [|apply keeps_ret].
  apply keeps_bind; [apply keeps_lift|]. intros items.
  apply keeps_bind; [apply keeps_enrich_posts|]. intros enriched.
  apply keeps_bind; [apply keeps_get_unified_tags|]. intros unified.
  apply keeps_bind; [apply keeps_lift|]. intros rewritten. apply keeps_ret.
Qed.

End File_system.

(** ** Dictionaries and sets *)

Lemma text_eqb_eq a b : text_eqb a b = true <-> a = b.
Proof.
  revert b. induction a as [|x a IH]; intros [|y b]; simpl; split; intros H;
    try reflexivity; try discriminate.
  - apply andb_true_iff in H as [H1 H2]. apply Z.eqb_eq in H1. apply IH in H2.
    congruence.
  - inversion H; subst. rewrite Z.eqb_refl. simpl. apply IH. reflexivity.
Qed.

Lemma text_eqb_refl a : text_eqb a a = true.
Proof. apply text_eqb_eq. reflexivity. Qed.

Lemma text_eqb_neq a b : a <> b -> text_eqb a b = false.
Proof.
  intros H. destruct (text_eqb a b) eqn:E; [|reflexivity].
  apply text_eqb_eq in E. contradiction.
Qed.

Lemma dict_get_set_same k v d : Dict.get k (Dict.set k v d) = Some v.
Proof.
  induction d as [|[k' v'] r IH]; simpl.
  - rewrite text_eqb_refl. reflexivity.
  - destruct (text_eqb k k') eqn:E; simpl; rewrite ?text_eqb_refl, ?E; auto.
Qed.

Lemma dict_get_set_other k k' v d :
  k <> k' -> Dict.get k (Dict.set k' v d) = Dict.get k d.
Proof.
  intros Hne. induction d as [|[k'' v''] r IH]; simpl.
  - rewrite text_eqb_neq by exact Hne. reflexivity.
  - destruct (text_eqb k' k'') eqn:E; simpl.
    + apply text_eqb_eq in E. subst k''. rewrite !text_eqb_neq by exact Hne. reflexivity.
    + destruct (text_eqb k k''); [reflexivity|exact IH].
Qed.

Lemma dict_keys_set k k' v d :
  In k (Dict.keys (Dict.set k' v d)) <-> k = k' \/ In k (Dict.keys d).
Proof.
  induction d as [|[k'' v''] r IH]; simpl.
  - intuition.
  - destruct (text_eqb k' k'') eqn:E; simpl.
    + apply text_eqb_eq in E. subst k''. intuition.
    + rewrite IH. intuition.
Qed.

Lemma dict_keys_merge k a b :
  In k (Dict.keys (Dict.merge a b)) <-> In k (Dict.keys a) \/ In k (Dict.keys b).
Proof.
  unfold Dict.merge. revert a. induction b as [|[k' v'] b IH]; intros a; simpl.
  - intuition.
  - rewrite IH, dict_keys_set. intuition.
Qed.

Lemma dict_get_app k a b :
  Dict.get k (a ++ b) = match Dict.get k a with Some v => Some v | None => Dict.get k b end.
Proof.
  induction a as [|[k' v'] a IH]; simpl; [reflexivity|].
  destruct (text_eqb k k'); [reflexivity|exact IH].
Qed.

(** In [{**a, **b}] a key of [b] has its (last) value in [b], and any
    other key keeps its value in [a]. *)
Lemma dict_get_merge k a b :
  Dict.get k (Dict.merge a b)
  = match Dict.get k (rev b) with Some v => Some v | None => Dict.get k a end.
Proof.
  unfold Dict.merge. revert a. induction b as [|[k' v'] b IH]; intros a; simpl.
  - reflexivity.
  - rewrite IH, dict_get_app. destruct (Dict.get k (rev b)); [reflexivity|].
    simpl. destruct (text_eqb k k') eqn:E.
    + apply text_eqb_eq in E. subst. apply dict_get_set_same.
    + apply dict_get_set_other. intros ->. rewrite text_eqb_refl in E. discriminate.
Qed.

Lemma py_eq_str s v : py_eq (JStr s) v = true -> v = JStr s.
Proof.
  destruct v; simpl; try discriminate.
  intros H. apply text_eqb_eq in H. congruence.
Qed.

Lemma mem_false x s : PySet.mem x s = false -> forall a, In a s -> py_eq x a = false.
Proof.
  unfold PySet.mem. intros H a Ha.
  destruct (py_eq x a) eqn:E; [|reflexivity].
  assert (existsb (py_eq x) s = true) by (apply existsb_exists; eauto).
  congruence.
Qed.

Lemma mem_true x s : PySet.mem x s = true -> exists a, In a s /\ py_eq x a = true.
Proof. unfold PySet.mem. intros H. apply existsb_exists in H. exact H. Qed.

Lemma distinct_snoc s x :
  distinct s -> (forall a, In a s -> py_eq x a = false) -> distinct (s ++ [x]).
Proof.
  induction s as [|a r IH]; simpl; intros Hd Hx.
  - split; [intros b []|exact I].
  - destruct Hd as [Ha Hr]. split.
    + intros b Hb. apply in_app_or in Hb as [Hb|[<-|[]]]; auto.
    + apply IH; auto.
Qed.

Lemma add_distinct x s : distinct s -> distinct (PySet.add x s).
Proof.
  intros Hd. unfold PySet.add. destruct (PySet.mem x s) eqn:E; [exact Hd|].
  apply distinct_snoc; [exact Hd|]. apply mem_false. exact E.
Qed.

Lemma add_in x y s : In y (PySet.add x s) -> In y s \/ y = x.
Proof.
  unfold PySet.add. destruct (PySet.mem x s); [auto|].
  intros H. apply in_app_or in H as [H|[<-|[]]]; auto.
Qed.

Lemma add_keeps x y s : In y s -> In y (PySet.add x s).
Proof.
  unfold PySet.add. destruct (PySet.mem x s); [auto|].
  intros H. apply in_or_app. auto.
Qed.

Lemma add_covers x s : is_hashable x = true ->
  exists y, In y (PySet.add x s) /\ (y = x \/ py_eq x y = true).
Proof.
  intros _. unfold PySet.add. destruct (PySet.mem x s) eqn:E.
  - apply mem_true in E as [a [Ha He]]. eauto.
  - exists x. split; [apply in_or_app; simpl; auto|auto].
Qed.

Section Fold_add.

Let step := fun (s : PySet.t) (x : json) => PySet.add x s.

Lemma fold_add_distinct xs s : distinct s -> distinct (fold_left step xs s).
Proof.
  revert s. induction xs as [|x xs IH]; intros s Hd; simpl; [exact Hd|].
  apply IH. apply add_distinct. exact Hd.
Qed.

Lemma fold_add_in xs s y : In y (fold_left step xs s) -> In y s \/ In y xs.
Proof.
  revert s. induction xs as [|x xs IH]; intros s; simpl; [auto|].
  intros H. apply IH in H as [H|H]; [|auto].
  apply add_in in H as [H|H]; auto.
Qed.

Lemma fold_add_keeps xs s y : In y s -> In y (fold_left step xs s).
Proof.
  revert s. induction xs as [|x xs IH]; intros s; simpl; [auto|].
  intros H. apply IH. apply add_keeps. exact H.
Qed.

Lemma fold_add_covers xs s x :
  In x xs -> Forall (fun v => is_hashable v = true) xs ->
  exists y, In y (fold_left step xs s) /\ (y = x \/ py_eq x y = true).
Proof.
  revert s. induction xs as [|x' xs IH]; intros s; simpl; [intros []|].
  intros [->|Hin] Hh; inversion Hh; subst.
  - destruct (add_covers x s) as [y [Hy He]]; [assumption|].
    exists y. split; [apply fold_add_keeps; exact Hy|exact He].
  - apply IH; assumption.
Qed.

End Fold_add.

(** ** The merge of line 93 *)

(** C4 (as the code has it). The merge keeps every key of the metadata
    mapping: the keys of [{**post, **metadata}] are those of the post
    together with those of the metadata, whatever they are called, and a
    key of the metadata carries the metadata's value. *)
Theorem merge_keeps_every_metadata_key (post md : dict) :
  merge_metadata post (JObj md) = Ok (Dict.merge post md)
  /\ (forall k, In k (Dict.keys (Dict.merge post md))
                <-> In k (Dict.keys post) \/ In k (Dict.keys md))
  /\ (forall k, Dict.get k (Dict.merge post md)
                = match Dict.get k (rev md) with
                  | Some v => Some v
                  | None => Dict.get k post
                  end).
Proof.
  split; [reflexivity|]. split.
  - intros k. apply dict_keys_merge.
  - intros k. apply dict_get_merge.
Qed.

(** C4, counterexample. A reply with a fourth key, [mood]: the merged post
    has the key [mood], which is neither a key of the post nor one of
    [line_count], [language], [tags]. *)
Lemma merge_does_not_drop_extra_keys :
  let post := [(lit "text", JStr (lit "Hello"))] in
  exists md merged,
    Example.metadata_extra = JObj md
    /\ merge_metadata post Example.metadata_extra = Ok merged
    /\ In (lit "mood") (Dict.keys merged)
    /\ ~ (In (lit "mood") (Dict.keys post) \/ In (lit "mood") metadata_keys).
Proof.
  eexists. eexists. split; [reflexivity|]. split; [reflexivity|]. split.
  - vm_compute. do 4 right. left. reflexivity.
  - vm_compute. intros [[H|[]]|[H|[H|[H|[]]]]]; discriminate.
Qed.

(** ** The rewrite of lines 98-101 *)

Section Rewrite.

Context `{P : Platform}.

Lemma get_or_same_str tag_map t :
  get_or_same (JObj tag_map) (JStr t) = Ok (renamed tag_map t).
Proof. reflexivity. Qed.

Lemma map_tags_strings tag_map tags acc :
  Forall (fun t => is_hashable (renamed tag_map t) = true) tags ->
  map_tags (JObj tag_map) acc (List.map JStr tags)
  = Ok (fold_left (fun s x => PySet.add x s) (List.map (renamed tag_map) tags) acc).
Proof.
  intros H. revert acc. induction H as [|t tags Ht _ IH]; intros acc; simpl.
  - reflexivity.
  - fold (renamed tag_map t). rewrite Ht. apply IH.
Qed.

Lemma in_set_order (s : PySet.t) (v : json) : In v (set_order s) <-> In v s.
Proof.
  pose proof (set_order_perm s) as Hp. split; intros H.
  - eapply Permutation_in; [exact Hp|exact H].
  - eapply Permutation_in; [apply Permutation_sym; exact Hp|exact H].
Qed.

(** C6. For a post whose tags are strings and a mapping whose values can
    be put in a set, the rewrite stores as the post's tags the set of the
    renamed tags, each tag renamed to the mapping's value for it or kept
    when the mapping has no such key: every stored tag is a renamed tag,
    every renamed tag is stored (up to equality), no stored tag equals
    another, and a tag that the mapping sends to itself, or does not
    mention, is among the stored tags. *)
Theorem rewrite_post_renames_and_dedups
    (tag_map post : dict) (current : json) (tags : list text) :
  getitem (JObj post) (lit "tags") = Ok current ->
  iter current = Ok (List.map JStr tags) ->
  Forall (fun t => is_hashable (renamed tag_map t) = true) tags ->
  let new_tags := set_of_list (List.map (renamed tag_map) tags) in
  rewrite_post (JObj tag_map) post
    = Ok (Dict.set (lit "tags") (JArr (set_order new_tags)) post)
  /\ (forall v, In v (set_order new_tags) -> exists t, In t tags /\ v = renamed tag_map t)
  /\ (forall t, In t tags ->
        exists v, In v (set_order new_tags)
                  /\ (v = renamed tag_map t \/ py_eq (renamed tag_map t) v = true))
  /\ distinct new_tags
  /\ (forall T, In T tags ->
        Dict.get T tag_map = Some (JStr T) \/ Dict.get T tag_map = None ->
        In (JStr T) (set_order new_tags)).
Proof.
  intros Hget Hiter Hh new_tags.
  assert (Hh' : Forall (fun v => is_hashable v = true) (List.map (renamed tag_map) tags)).
  { apply List.Forall_forall. intros v Hv. apply in_map_iff in Hv as [t [<- Ht]].
    rewrite List.Forall_forall in Hh. apply Hh. exact Ht. }
  assert (Hcover : forall t, In t tags ->
            exists v, In v (set_order new_tags)
                      /\ (v = renamed tag_map t \/ py_eq (renamed tag_map t) v = true)).
  { intros t Ht.
    destruct (fold_add_covers (List.map (renamed tag_map) tags) [] (renamed tag_map t))
      as [y [Hy He]]; [apply in_map; exact Ht|exact Hh'|].
    exists y. split; [apply (proj2 (in_set_order _ _)); exact Hy|exact He]. }
  split; [|split; [|split; [|split]]].
  - unfold rewrite_post. rewrite Hget. simpl. rewrite Hiter. simpl.
    rewrite map_tags_strings by exact Hh. reflexivity.
  - intros v Hv. apply (proj1 (in_set_order _ _)) in Hv.
    apply fold_add_in in Hv as [[]|Hv].
    apply in_map_iff in Hv as [t [<- Ht]]. eauto.
  - exact Hcover.
  - apply fold_add_distinct. exact I.
  - intros T HT Hmap. destruct (Hcover T HT) as [v [Hv He]].
    assert (Hr : renamed tag_map T = JStr T).
    { unfold renamed. destruct Hmap as [-> | ->]; reflexivity. }
    rewrite Hr in He. destruct He as [-> | He]; [exact Hv|].
    apply py_eq_str in He. subst v. exact Hv.
Qed.

End Rewrite.

Lemma rewrite_post_renames_and_dedups_witness :
  let post : dict := [ (lit "text", JStr (lit "Hello"));
                       (lit "tags", JArr [JStr (lit "Jobseekers"); JStr (lit "Job Hunting");
                                          JStr (lit "Job Search")]) ] in
  let tag_map : dict := [ (lit "Jobseekers", JStr (lit "Job Search"));
                          (lit "Job Search", JStr (lit "Job Search")) ] in
  rewrite_post (P := Example.platform) (JObj tag_map) post
    = Ok [ (lit "text", JStr (lit "Hello"));
           (lit "tags", JArr [JStr (lit "Job Search"); JStr (lit "Job Hunting")]) ]
  /\ In (JStr (lit "Job Search"))
        (set_order (Platform := Example.platform)
           (set_of_list (List.map (renamed tag_map)
              [lit "Jobseekers"; lit "Job Hunting"; lit "Job Search"]))).
Proof.
  intros post tag_map.
  pose proof (rewrite_post_renames_and_dedups (P := Example.platform) tag_map post
                (JArr [JStr (lit "Jobseekers"); JStr (lit "Job Hunting");
                       JStr (lit "Job Search")])
                [lit "Jobseekers"; lit "Job Hunting"; lit "Job Search"]
                eq_refl eq_refl) as H.
  assert (Hh : Forall (fun t => is_hashable (renamed tag_map t) = true)
                 [lit "Jobseekers"; lit "Job Hunting"; lit "Job Search"]).
  { repeat constructor. }
  destruct (H Hh) as [H1 [_ [_ [_ H5]]]].
  split.
  - exact H1.
  - apply (H5 (lit "Job Search")).
    + right. right. left. reflexivity.
    + left. reflexivity.
Defined.

(** ** The two loops and the pipeline *)

Section Pipeline.

Context `{P : Platform}.

(** What a post that went through lines 91-93 looks like. *)
Lemma enrich_post_inv post w e w' :
  enrich_post post w = (Ok e, w') ->
  exists d s md,
    post = JObj d
    /\ Dict.get (lit "text") d = Some (JStr s)
    /\ extract_metadata (remove_emoji s) w = (Ok (JObj md), w')
    /\ e = Dict.merge (Dict.set (lit "text") (JStr (remove_emoji s)) d) md.
Proof.
  unfold enrich_post. intros H.
  apply bind_ok_inv in H as (raw & w1 & H1 & H).
  apply lift_ok_inv in H1 as [H1 ->].
  apply bind_ok_inv in H as (cleaned & w2 & H2 & H).
  apply lift_ok_inv in H2 as [H2 ->].
  apply bind_ok_inv in H as (post' & w3 & H3 & H).
  apply lift_ok_inv in H3 as [H3 ->].
  apply bind_ok_inv in H as (metadata & w4 & H4 & H).
  apply lift_ok_inv in H as [H5 ->].
  destruct post as [| | | | |items|d]; try discriminate.
  simpl in H1. destruct (Dict.get (lit "text") d) as [x|] eqn:Hx; [|discriminate].
  inversion H1; subst x.
  destruct raw as [| | | |s| |]; try discriminate.
  inversion H2; subst cleaned. inversion H3; subst post'.
  destruct metadata as [| | | | | |md]; try discriminate.
  inversion H5; subst e.
  exists d, s, md. auto.
Qed.

Lemma enrich_posts_inv items : forall w enriched w',
  enrich_posts items w = (Ok enriched, w') ->
  Forall2 (fun item e => exists wa wb, enrich_post item wa = (Ok e, wb)) items enriched.
Proof.
  induction items as [|p rest IH]; simpl; intros w enriched w' H.
  - apply ret_inv in H as [H _]. inversion H. constructor.
  - apply bind_ok_inv in H as (e & w1 & H1 & H).
    apply bind_ok_inv in H as (r & w2 & H2 & H).
    apply ret_inv in H as [H _]. inversion H; subst enriched.
    constructor; [eauto|]. eapply IH. exact H2.
Qed.

(** The first loop stops at the first post that raises: the posts after
    it are not looked at, and the world is the one that post left. *)
Lemma enrich_posts_abort before post after : forall w done w1 e w2,
  enrich_posts before w = (Ok done, w1) ->
  enrich_post post w1 = (Raise e, w2) ->
  enrich_posts (before ++ post :: after) w = (Raise e, w2).
Proof.
  induction before as [|p rest IH]; simpl; intros w done w1 e w2 Hb Hp.
  - apply ret_inv in Hb as [_ ->]. apply bind_raise. exact Hp.
  - apply bind_ok_inv in Hb as (x & wx & Hx & Hb).
    apply bind_ok_inv in Hb as (r & wr & Hr & Hb).
    apply ret_inv in Hb as [_ ->].
    rewrite (bind_ok _ _ _ _ _ Hx). apply bind_raise. eapply IH; eauto.
Qed.

Lemma rewrite_posts_inv unified enriched : forall batch,
  rewrite_posts unified enriched = Ok batch ->
  Forall2 (fun e out => rewrite_post unified e = Ok out) enriched batch.
Proof.
  induction enriched as [|e rest IH]; simpl; intros batch H.
  - inversion H. constructor.
  - destruct (rewrite_post unified e) as [out|] eqn:He; [|discriminate]. simpl in H.
    destruct (rewrite_posts unified rest) as [outs|] eqn:Hr; [|discriminate]. simpl in H.
    inversion H; subst batch. constructor; [exact He|]. apply IH. reflexivity.
Qed.

(** The steps behind a batch that reached line 103. *)
Lemma enrich_batch_inv raw w batch w' :
  enrich_batch raw w = (Ok (Some batch), w') ->
  exists posts w0 items enriched w1 unified,
    load_batch raw w = (Ok (Some posts), w0)
    /\ iter posts = Ok items
    /\ enrich_posts items w0 = (Ok enriched, w1)
    /\ get_unified_tags enriched w1 = (Ok unified, w')
    /\ rewrite_posts unified enriched = Ok batch.
Proof.
  unfold enrich_batch. intros H.
  apply bind_ok_inv in H as (loaded & w0 & H0 & H).
  destruct loaded as [posts|]; [|apply ret_inv in H as [H _]; discriminate].
  apply bind_ok_inv in H as (items & wi & Hi & H).
  apply lift_ok_inv in Hi as [Hi ->].
  apply bind_ok_inv in H as (enriched & w1 & He & H).
  apply bind_ok_inv in H as (unified & w2 & Hu & H).
  apply bind_ok_inv in H as (rewritten & w3 & Hr & H).
  apply lift_ok_inv in Hr as [Hr ->].
  apply ret_inv in H as [H ->]. inversion H; subst rewritten.
  exists posts, w0, items, enriched, w1, unified. auto.
Qed.

(** [process_posts] by the outcome of the steps before the write. *)
Lemma process_posts_cases raw out w :
  match enrich_batch raw w with
  | (Ok (Some batch), w1) => process_posts raw out w = write_batch out batch w1
  | (Ok None, w1) => process_posts raw out w = (Ok tt, w1)
  | (Raise e, w1) => process_posts raw out w = (Raise e, w1)
  end.
Proof.
  unfold process_posts, bind.
  destruct (enrich_batch raw w) as [[[batch|]|e] w1]; reflexivity.
Qed.

Lemma enrich_batch_files raw w : files (snd (enrich_batch raw w)) = files w.
Proof. apply keeps_enrich_batch. Qed.

(** An exception in the first loop leaves [process_posts]. *)
Lemma process_posts_abort_in_loop raw out w posts w0 items e w1 :
  load_batch raw w = (Ok (Some posts), w0) ->
  iter posts = Ok items ->
  enrich_posts items w0 = (Raise e, w1) ->
  process_posts raw out w = (Raise e, w1) /\ files w1 = files w.
Proof.
  intros Hl Hi He.
  assert (Hb : enrich_batch raw w = (Raise e, w1)).
  { unfold enrich_batch. rewrite (bind_ok _ _ _ _ _ Hl).
    rewrite (bind_ok (lift (iter posts)) _ w0 items w0) by (unfold lift; rewrite Hi; reflexivity).
    apply bind_raise. exact He. }
  pose proof (process_posts_cases raw out w) as Hc. rewrite Hb in Hc.
  pose proof (enrich_batch_files raw w) as Hf. rewrite Hb in Hf.
  split; [exact Hc|exact Hf].
Qed.

(** An exception in [get_unified_tags] leaves [process_posts]. *)
Lemma process_posts_abort_in_unify raw out w posts w0 items enriched w1 e w2 :
  load_batch raw w = (Ok (Some posts), w0) ->
  iter posts = Ok items ->
  enrich_posts items w0 = (Ok enriched, w1) ->
  get_unified_tags enriched w1 = (Raise e, w2) ->
  process_posts raw out w = (Raise e, w2) /\ files w2 = files w.
Proof.
  intros Hl Hi He Hu.
  assert (Hb : enrich_batch raw w = (Raise e, w2)).
  { unfold enrich_batch. rewrite (bind_ok _ _ _ _ _ Hl).
    rewrite (bind_ok (lift (iter posts)) _ w0 items w0) by (unfold lift; rewrite Hi; reflexivity).
    rewrite (bind_ok _ _ _ _ _ He). apply bind_raise. exact Hu. }
  pose proof (process_posts_cases raw out w) as Hc. rewrite Hb in Hc.
  pose proof (enrich_batch_files raw w) as Hf. rewrite Hb in Hf.
  split; [exact Hc|exact Hf].
Qed.

(** When the loader has printed its message, [process_posts] returns. *)
Lemma process_posts_loader_failed raw out w w1 :
  load_batch raw w = (Ok None, w1) ->
  process_posts raw out w = (Ok tt, w1) /\ files w1 = files w.
Proof.
  intros Hl.
  assert (Hb : enrich_batch raw w = (Ok None, w1)).
  { unfold enrich_batch. rewrite (bind_ok _ _ _ _ _ Hl). reflexivity. }
  pose proof (process_posts_cases raw out w) as Hc. rewrite Hb in Hc.
  pose proof (enrich_batch_files raw w) as Hf. rewrite Hb in Hf.
  split; [exact Hc|exact Hf].
Qed.

End Pipeline.

(** ** Replies that do not parse *)

Section Parse_failure.

Context `{P : Platform}.

(** Both templates have one slot, and the call fills it. *)
Lemma format_extract_total post :
  exists prompt, format extract_template [(lit "post", post)] = Ok prompt.
Proof. eexists. vm_compute. reflexivity. Qed.

Lemma format_unify_total tags :
  exists prompt, format unify_template [(lit "tags", tags)] = Ok prompt.
Proof. eexists. vm_compute. reflexivity. Qed.

Lemma extract_metadata_unparseable post prompt w reply st :
  format extract_template [(lit "post", post)] = Ok prompt ->
  llm_invoke (llm w) prompt = (Some reply, st) ->
  output_parse reply = None ->
  extract_metadata post w
  = (Raise (OutputParserException (lit "Context is too big, unable to process")),
     with_llm st w).
Proof.
  intros Hf Hl Hp. unfold extract_metadata.
  rewrite (bind_ok (lift _) _ w prompt w) by (unfold lift; rewrite Hf; reflexivity).
  rewrite (bind_ok (invoke prompt) _ w reply (with_llm st w))
    by (unfold invoke; rewrite Hl; reflexivity).
  rewrite Hp. reflexivity.
Qed.

Lemma get_unified_tags_unparseable posts tags joined prompt w reply st :
  collect_tags [] posts = Ok tags ->
  str_join (lit ",") (set_order tags) = Ok joined ->
  format unify_template [(lit "tags", joined)] = Ok prompt ->
  llm_invoke (llm w) prompt = (Some reply, st) ->
  output_parse reply = None ->
  get_unified_tags posts w
  = (Raise (OutputParserException (lit "Context is too big, unable to process")),
     with_llm st w).
Proof.
  intros Hc Hj Hf Hl Hp. unfold get_unified_tags.
  rewrite (bind_ok (lift _) _ w tags w) by (unfold lift; rewrite Hc; reflexivity).
  rewrite (bind_ok (lift _) _ w joined w) by (unfold lift; rewrite Hj; reflexivity).
  rewrite (bind_ok (lift _) _ w prompt w) by (unfold lift; rewrite Hf; reflexivity).
  rewrite (bind_ok (invoke prompt) _ w reply (with_llm st w))
    by (unfold invoke; rewrite Hl; reflexivity).
  rewrite Hp. reflexivity.
Qed.

(** C1. A reply that the parser rejects makes [extract_metadata] and
    [get_unified_tags] raise the parse error with the message
    "Context is too big, unable to process", and [process_posts] ends with
    that exception in the world the call left: the posts after the failing
    one are not processed, the model is not asked again, and no file is
    touched. *)
Theorem unparseable_reply_aborts :
  (forall post prompt w reply st,
      format extract_template [(lit "post", post)] = Ok prompt ->
      llm_invoke (llm w) prompt = (Some reply, st) ->
      output_parse reply = None ->
      extract_metadata post w
      = (Raise (OutputParserException (lit "Context is too big, unable to process")),
         with_llm st w))
  /\ (forall posts tags joined prompt w reply st,
      collect_tags [] posts = Ok tags ->
      str_join (lit ",") (set_order tags) = Ok joined ->
      format unify_template [(lit "tags", joined)] = Ok prompt ->
      llm_invoke (llm w) prompt = (Some reply, st) ->
      output_parse reply = None ->
      get_unified_tags posts w
      = (Raise (OutputParserException (lit "Context is too big, unable to process")),
         with_llm st w))
  /\ (forall raw out w posts w0 before d after done w1 s prompt reply st,
      load_batch raw w = (Ok (Some posts), w0) ->
      iter posts = Ok (before ++ JObj d :: after) ->
      enrich_posts before w0 = (Ok done, w1) ->
      Dict.get (lit "text") d = Some (JStr s) ->
      format extract_template [(lit "post", remove_emoji s)] = Ok prompt ->
      llm_invoke (llm w1) prompt = (Some reply, st) ->
      output_parse reply = None ->
      process_posts raw out w
      = (Raise (OutputParserException (lit "Context is too big, unable to process")),
         with_llm st w1)
      /\ files (with_llm st w1) = files w)
  /\ (forall raw out w posts w0 items enriched w1 tags joined prompt reply st,
      load_batch raw w = (Ok (Some posts), w0) ->
      iter posts = Ok items ->
      enrich_posts items w0 = (Ok enriched, w1) ->
      collect_tags [] enriched = Ok tags ->
      str_join (lit ",") (set_order tags) = Ok joined ->
      format unify_template [(lit "tags", joined)] = Ok prompt ->
      llm_invoke (llm w1) prompt = (Some reply, st) ->
      output_parse reply = None ->
      process_posts raw out w
      = (Raise (OutputParserException (lit "Context is too big, unable to process")),
         with_llm st w1)
      /\ files (with_llm st w1) = files w).
Proof.
  split; [|split; [|split]].
  - intros. eapply extract_metadata_unparseable; eauto.
  - intros. eapply get_unified_tags_unparseable; eauto.
  - intros raw out w posts w0 before d after done w1 s prompt reply st
      Hl Hi Hb Hd Hf Hm Hp.
    eapply process_posts_abort_in_loop; [exact Hl|exact Hi|].
    eapply enrich_posts_abort; [exact Hb|].
    unfold enrich_post. simpl. rewrite Hd.
    rewrite (bind_ok (lift _) _ w1 (JStr s) w1) by reflexivity.
    rewrite (bind_ok (lift _) _ w1 (remove_emoji s) w1) by reflexivity.
    rewrite (bind_ok (lift _) _ w1 (Dict.set (lit "text") (JStr (remove_emoji s)) d) w1)
      by reflexivity.
    apply bind_raise. eapply extract_metadata_unparseable; eauto.
  - intros raw out w posts w0 items enriched w1 tags joined prompt reply st
      Hl Hi He Hc Hj Hf Hm Hp.
    eapply process_posts_abort_in_unify; [exact Hl|exact Hi|exact He|].
    eapply get_unified_tags_unparseable; eauto.
Qed.

End Parse_failure.

(** The second of two posts gets a refusal: the run ends there, with the
    reply meant for the next call still unread. *)
Lemma unparseable_reply_aborts_witness :
  let w := Example.world (Example.bytes_of Example.two_posts_text)
             [Example.reply_a; Example.refusal; Example.reply_unified] in
  let r := process_posts Example.raw_path default_processed_file_path w in
  fst r = Raise (OutputParserException (lit "Context is too big, unable to process"))
  /\ llm (snd r) = [Example.reply_unified]
  /\ files (snd r) = files w.
Proof.
  intros w r.
  destruct (unparseable_reply_aborts (P := Example.platform)) as (_ & _ & H & _).
  edestruct (H Example.raw_path default_processed_file_path w) as [H1 H2].
  - run_lhs.
  - instantiate (3 := [_]). reflexivity.
  - run_lhs.
  - reflexivity.
  - run_lhs.
  - run_lhs.
  - reflexivity.
  - subst r. rewrite H1. simpl. split; [reflexivity|]. split; [reflexivity|exact H2].
Defined.

(** ** The batch as a whole *)

Section Batch.

Context `{P : Platform}.

Lemma write_batch_raise out batch w e w' :
  write_batch out batch w = (Raise e, w') ->
  (e = OSError /\ w' = w) \/ e = UnicodeEncodeError.
Proof.
  unfold write_batch. destruct (writable w out).
  - destruct (json_dump _); intros H; inversion H; auto.
  - intros H. inversion H. auto.
Qed.

(** C2. Whatever ends the steps before line 103 ends [process_posts]
    with the file system untouched: the loader's message and [return], or
    any exception of the two loops and of [get_unified_tags], the parse
    error among them. The file system changes only if the loader, the
    first loop over all the posts, the unifier and the rewrite of all the
    posts have succeeded, and then by the write of that whole batch. *)
Theorem process_posts_all_or_nothing raw out w :
  match enrich_batch raw w with
  | (Ok (Some batch), w1) => process_posts raw out w = write_batch out batch w1
  | (Ok None, w1) => process_posts raw out w = (Ok tt, w1) /\ files w1 = files w
  | (Raise e, w1) => process_posts raw out w = (Raise e, w1) /\ files w1 = files w
  end
  /\ (forall w1, load_batch raw w = (Ok None, w1) ->
        process_posts raw out w = (Ok tt, w1) /\ files w1 = files w)
  /\ (forall e, fst (process_posts raw out w) = Raise e -> e <> UnicodeEncodeError ->
        files (snd (process_posts raw out w)) = files w)
  /\ (files (snd (process_posts raw out w)) <> files w ->
        exists posts w0 items enriched w1 unified w2 batch,
          load_batch raw w = (Ok (Some posts), w0)
          /\ iter posts = Ok items
          /\ enrich_posts items w0 = (Ok enriched, w1)
          /\ get_unified_tags enriched w1 = (Ok unified, w2)
          /\ rewrite_posts unified enriched = Ok batch
          /\ length enriched = length items
          /\ length batch = length items
          /\ process_posts raw out w = write_batch out batch w2).
Proof.
  pose proof (process_posts_cases raw out w) as Hc.
  pose proof (enrich_batch_files raw w) as Hf.
  split; [|split; [|split]].
  - destruct (enrich_batch raw w) as [[[batch|]|e] w1]; simpl in Hf; auto.
  - intros w1 Hl. apply process_posts_loader_failed. exact Hl.
  - intros e He Hne.
    destruct (enrich_batch raw w) as [[[batch|]|e'] w1]; simpl in Hf;
      rewrite Hc in *; simpl in *; try exact Hf.
    destruct (write_batch out batch w1) as [r w'] eqn:Hw. simpl in He. subst r.
    apply write_batch_raise in Hw as [[_ ->]|Hw]; [exact Hf|contradiction].
  - intros Hchg.
    destruct (enrich_batch raw w) as [[[batch|]|e] w1] eqn:Hb; simpl in Hf;
      try (rewrite Hc in Hchg; simpl in Hchg; contradiction).
    destruct (enrich_batch_inv _ _ _ _ Hb)
      as (posts & w0 & items & enriched & w1' & unified & Hl & Hi & He & Hu & Hr).
    exists posts, w0, items, enriched, w1', unified, w1, batch.
    repeat split; auto.
    + apply enrich_posts_inv in He. symmetry. eapply Forall2_length. exact He.
    + apply enrich_posts_inv in He. apply rewrite_posts_inv in Hr.
      apply Forall2_length in He, Hr. congruence.
Qed.

Lemma rewrite_post_tags unified e out :
  rewrite_post unified e = Ok out ->
  (exists tags, Dict.get (lit "tags") out = Some (JArr tags))
  /\ (forall k, k <> lit "tags" -> Dict.get k out = Dict.get k e).
Proof.
  unfold rewrite_post. intros H.
  destruct (getitem (JObj e) (lit "tags")) as [current|]; [|discriminate]. simpl in H.
  destruct (iter current) as [tags|]; [|discriminate]. simpl in H.
  destruct (map_tags unified [] tags) as [new_tags|]; [|discriminate]. simpl in H.
  inversion H; subst out. split.
  - eexists. apply dict_get_set_same.
  - intros k Hk. apply dict_get_set_other. exact Hk.
Qed.

Lemma collect_tags_missing enriched : forall acc post,
  In post enriched -> Dict.get (lit "tags") post = None ->
  exists e, collect_tags acc enriched = Raise e.
Proof.
  induction enriched as [|p rest IH]; intros acc post Hin Hnone; [destruct Hin|].
  destruct Hin as [->|Hin]; simpl.
  - rewrite Hnone. simpl. eauto.
  - destruct (Dict.get (lit "tags") p) as [tags|]; [|simpl; eauto]. simpl.
    destruct (iter tags) as [items|]; [|simpl; eauto]. simpl.
    destruct (PySet.update acc items) as [acc'|]; [|simpl; eauto]. simpl.
    eapply IH; eauto.
Qed.

(** C3 (as the code has it). Every post of a batch that reaches line 103
    has the field [tags], a list, and a post left without [tags] by the
    first loop makes [get_unified_tags] raise before the model is asked,
    so that nothing is written. The rewrite leaves every other field as
    the merge made it: [line_count] and [language] are there only if the
    reply or the input post had them. *)
Theorem written_posts_have_tags :
  (forall raw w batch w1,
      enrich_batch raw w = (Ok (Some batch), w1) ->
      Forall (fun post => exists tags, Dict.get (lit "tags") post = Some (JArr tags)) batch)
  /\ (forall enriched post w,
      In post enriched -> Dict.get (lit "tags") post = None ->
      exists e, get_unified_tags enriched w = (Raise e, w))
  /\ (forall unified e out k,
      rewrite_post unified e = Ok out -> k <> lit "tags" ->
      Dict.get k out = Dict.get k e).
Proof.
  split; [|split].
  - intros raw w batch w1 Hb.
    destruct (enrich_batch_inv _ _ _ _ Hb)
      as (posts & w0 & items & enriched & w1' & unified & _ & _ & _ & _ & Hr).
    apply rewrite_posts_inv in Hr. clear Hb.
    induction Hr as [|e out es outs He _ IH]; [constructor|].
    constructor; [|exact IH].
    apply rewrite_post_tags in He. apply He.
  - intros enriched post w Hin Hnone.
    destruct (collect_tags_missing enriched [] post Hin Hnone) as [e He].
    exists e. unfold get_unified_tags. apply bind_raise. unfold lift. rewrite He.
    reflexivity.
  - intros unified e out k Hr Hk. apply rewrite_post_tags in Hr. apply Hr. exact Hk.
Qed.

Lemma enrich_batch_order raw w batch w1 :
  enrich_batch raw w = (Ok (Some batch), w1) ->
  exists posts w0 items unified,
    load_batch raw w = (Ok (Some posts), w0)
    /\ iter posts = Ok items
    /\ Forall2 (enrichment_of unified) items batch.
Proof.
  intros Hb.
  destruct (enrich_batch_inv _ _ _ _ Hb)
    as (posts & w0 & items & enriched & w1' & unified & Hl & Hi & He & Hu & Hr).
  exists posts, w0, items, unified. split; [exact Hl|]. split; [exact Hi|].
  apply enrich_posts_inv in He. apply rewrite_posts_inv in Hr.
  clear -He Hr. revert batch Hr.
  induction He as [|item e items es (wa & wb & Hitem) _ IH]; intros batch Hr;
    inversion Hr; subst; constructor.
  - apply enrich_post_inv in Hitem as (d & s & md & -> & Hd & Hm & ->).
    exists d, s, md. eauto 10.
  - apply IH. assumption.
Qed.

(** C7. When the steps before line 103 succeed, the batch handed to the
    writer has one element for each element of the parsed input, in the
    same order: the i-th is the enrichment of the i-th input post. The
    file then holds what [json.dump] writes for that list. *)
Theorem output_follows_input_order raw out w batch w1 :
  enrich_batch raw w = (Ok (Some batch), w1) ->
  exists posts w0 items unified,
    load_batch raw w = (Ok (Some posts), w0)
    /\ iter posts = Ok items
    /\ length batch = length items
    /\ Forall2 (enrichment_of unified) items batch
    /\ (forall (i : nat) item, items !! i = Some item ->
          exists o, batch !! i = Some o /\ enrichment_of unified item o)
    /\ files w1 = files w
    /\ (writable w1 out = true ->
        forall bs, json_dump (JArr (List.map JObj batch)) = Dumped bs ->
          process_posts raw out w = (Ok tt, with_files (<[out := bs]> (files w1)) w1)).
Proof.
  intros Hb.
  destruct (enrich_batch_order _ _ _ _ Hb) as (posts & w0 & items & unified & Hl & Hi & HF).
  exists posts, w0, items, unified.
  split; [exact Hl|]. split; [exact Hi|].
  split; [symmetry; eapply Forall2_length; exact HF|].
  split; [exact HF|]. split; [|split].
  - intros i item Hitem. eapply Forall2_lookup_l; eauto.
  - pose proof (enrich_batch_files raw w) as Hf. rewrite Hb in Hf. exact Hf.
  - intros Hw bs Hd.
    pose proof (process_posts_cases raw out w) as Hc. rewrite Hb in Hc.
    rewrite Hc. unfold write_batch. rewrite Hw, Hd. reflexivity.
Qed.

End Batch.

Lemma process_posts_all_or_nothing_witness :
  let w := Example.world (Example.bytes_of Example.two_posts_text)
             [Example.reply_a; Example.reply_b; Example.reply_unified] in
  files (snd (process_posts Example.raw_path default_processed_file_path w)) <> files w
  /\ exists batch w2,
       process_posts Example.raw_path default_processed_file_path w
       = write_batch default_processed_file_path batch w2.
Proof.
  intros w.
  assert (Hchg : files (snd (process_posts Example.raw_path default_processed_file_path w))
                 <> files w).
  { intros Heq.
    apply (f_equal (fun m : gmap text (list Byte.byte) => m !! default_processed_file_path))
      in Heq.
    vm_compute in Heq. discriminate. }
  split; [exact Hchg|].
  destruct (process_posts_all_or_nothing (P := Example.platform)
              Example.raw_path default_processed_file_path w) as (_ & _ & _ & H).
  destruct (H Hchg) as (posts & w0 & items & enriched & w1 & unified & w2 & batch & Hrest).
  exists batch, w2. apply Hrest.
Defined.

(** C3, counterexample. The model answers a post with the single field
    [tags]: the run succeeds and writes a post that has neither
    [line_count] nor [language]. *)
Lemma written_post_without_line_count :
  let w := Example.world (Example.bytes_of Example.one_post_text)
             [Example.reply_tags_only; Example.reply_empty_map] in
  let written := [ (lit "text", JStr (lit "Hello")); (lit "tags", JArr []) ] in
  fst (enrich_batch Example.raw_path w) = Ok (Some [written])
  /\ fst (process_posts Example.raw_path default_processed_file_path w) = Ok tt
  /\ files (snd (process_posts Example.raw_path default_processed_file_path w))
       !! default_processed_file_path
     = Some (Example.bytes_of (Example.js "[
    {
        'text': 'Hello',
        'tags': []
    }
]"))
  /\ has_key (lit "line_count") written = false
  /\ has_key (lit "language") written = false
  /\ has_metadata written = false.
Proof.
  intros w written. repeat split; vm_compute; reflexivity.
Qed.

Lemma written_posts_have_tags_witness :
  let w := Example.world (Example.bytes_of Example.two_posts_text)
             [Example.reply_a; Example.reply_b; Example.reply_unified] in
  exists batch w1,
    enrich_batch Example.raw_path w = (Ok (Some batch), w1)
    /\ Forall (fun post => exists tags, Dict.get (lit "tags") post = Some (JArr tags)) batch.
Proof.
  intros w. eexists. eexists.
  assert (H : forall b w1 (E : enrich_batch Example.raw_path w = (Ok (Some b), w1)),
            enrich_batch Example.raw_path w = (Ok (Some b), w1)
            /\ Forall (fun post => exists tags,
                         Dict.get (lit "tags") post = Some (JArr tags)) b).
  { intros b w1 E. split; [exact E|].
    exact (proj1 (written_posts_have_tags (P := Example.platform))
             Example.raw_path w b w1 E). }
  apply H. run_lhs.
Defined.

Lemma output_follows_input_order_witness :
  let w := Example.world (Example.bytes_of Example.two_posts_text)
             [Example.reply_a; Example.reply_b; Example.reply_unified] in
  exists batch w1 posts w0 items unified,
    enrich_batch Example.raw_path w = (Ok (Some batch), w1)
    /\ load_batch Example.raw_path w = (Ok (Some posts), w0)
    /\ iter posts = Ok items
    /\ length batch = length items
    /\ Forall2 (@enrichment_of Example.platform unified) items batch.
Proof.
  intros w.
  assert (H : exists batch w1, enrich_batch Example.raw_path w = (Ok (Some batch), w1)).
  { eexists. eexists. run_lhs. }
  destruct H as (batch & w1 & Hb).
  destruct (output_follows_input_order (P := Example.platform)
              Example.raw_path default_processed_file_path w batch w1 Hb)
    as (posts & w0 & items & unified & Hl & Hi & Hlen & HF & _).
  exists batch, w1, posts, w0, items, unified. auto.
Defined.

(** ** The loader *)

Section Loader.

Context `{P : Platform}.

Lemma load_loop_read raw w bs enc rest :
  files w !! raw = Some bs ->
  load_loop raw (enc :: rest) w
  = match read_text enc Ignore bs with
    | Raise UnicodeDecodeError =>
        load_loop raw rest (with_stdout (stdout w ++ [cannot_decode enc]) w)
    | Raise e => (Raise e, w)
    | Ok s =>
        match json_loads s with
        | Some posts => (Ok (Some posts), w)
        | None => (Ok None, with_stdout (stdout w ++ [not_json]) w)
        end
    end.
Proof.
  intros Hf. simpl. unfold bind at 1. unfold read_bytes. rewrite Hf.
  destruct (read_text enc Ignore bs) as [s|[]]; try reflexivity.
  destruct (json_loads s); reflexivity.
Qed.

(** C10. On the Python runtime the file is read with the handler
    ['ignore'], under which no encoding raises a decode error. The first
    attempt, utf-8, therefore always yields a text, and the load is
    decided by that text alone: the lines of the fall-through and of the
    exhausted list are never printed. Bytes that are not UTF-8 do not
    reach the text: a byte that cannot start a character is skipped, a
    sequence cut short by a byte that cannot continue it is dropped and
    that byte read afresh, and a sequence cut short by the end of the file
    is dropped; under ['strict'] each of these raises. *)
Theorem ignore_handler_defeats_fallback :
  (forall e bs, read_text e Ignore bs = py_read_text e Ignore bs) ->
  (forall e bs, read_text e Ignore bs <> Raise UnicodeDecodeError)
  /\ (forall raw w bs,
        files w !! raw = Some bs ->
        exists s,
          read_text Utf8 Ignore bs = Ok s
          /\ load_batch raw w
             = match json_loads s with
               | Some posts => (Ok (Some posts), w)
               | None => (Ok None, with_stdout (stdout w ++ [not_json]) w)
               end)
  /\ (forall b r,
        Utf8.first b = Utf8.InvalidStart ->
        Utf8.run Ignore Utf8.Start (b :: r) = Utf8.run Ignore Utf8.Start r
        /\ Utf8.run Strict Utf8.Start (b :: r) = Raise UnicodeDecodeError)
  /\ (forall n acc lo hi b r,
        (lo <=? b) && (b <=? hi) = false ->
        Utf8.run Ignore (Utf8.Cont n acc lo hi) (b :: r) = Utf8.run Ignore Utf8.Start (b :: r)
        /\ Utf8.run Strict (Utf8.Cont n acc lo hi) (b :: r) = Raise UnicodeDecodeError)
  /\ (forall n acc lo hi,
        Utf8.run Ignore (Utf8.Cont n acc lo hi) [] = Ok []
        /\ Utf8.run Strict (Utf8.Cont n acc lo hi) [] = Raise UnicodeDecodeError).
Proof.
  intros Hpy.
  assert (Hno : forall e bs, read_text e Ignore bs <> Raise UnicodeDecodeError).
  { intros e bs H. rewrite Hpy in H.
    pose proof (py_read_text_ignore e bs) as Hi. rewrite H in Hi. discriminate. }
  split; [exact Hno|]. split; [|split; [|split]].
  - intros raw w bs Hf.
    destruct (utf8_decode_ignore bs) as [s0 Hs0].
    assert (Hs : read_text Utf8 Ignore bs = Ok (universal_newlines s0)).
    { rewrite Hpy. unfold py_read_text. simpl. rewrite Hs0. reflexivity. }
    exists (universal_newlines s0). split; [exact Hs|].
    unfold load_batch, encodings. rewrite (load_loop_read _ _ _ _ _ Hf), Hs.
    reflexivity.
  - intros b r Hb. simpl. rewrite Hb. split; reflexivity.
  - intros n acc lo hi b r Hb. simpl. rewrite Hb. split; reflexivity.
  - intros n acc lo hi. split; reflexivity.
Qed.

End Loader.

(** The file of one post behind a byte that is not UTF-8: the byte is
    left out and the post is loaded at the first attempt. *)
Lemma ignore_handler_defeats_fallback_witness :
  let w := Example.world (Byte.xff :: Example.bytes_of Example.one_post_text) [] in
  load_batch Example.raw_path w = (Ok (Some Example.one_post), w).
Proof.
  intros w.
  destruct (ignore_handler_defeats_fallback (P := Example.platform) (fun e bs => eq_refl))
    as (_ & H & _).
  destruct (H Example.raw_path w (Byte.xff :: Example.bytes_of Example.one_post_text) eq_refl)
    as (s & Hs & Hload).
  rewrite Hload.
  assert (Es : s = Example.one_post_text).
  { assert (E : @read_text Example.platform Utf8 Ignore
                  (Byte.xff :: Example.bytes_of Example.one_post_text)
                = Ok Example.one_post_text) by (vm_compute; reflexivity).
    rewrite E in Hs. inversion Hs. reflexivity. }
  rewrite Es. reflexivity.
Defined.

(** C5 (the code does not do it). A file in UTF-16 behind a byte order
    mark that holds one post. Read strictly, utf-8 raises a decode error
    on it, and utf-16, the next encoding of the list, reads the JSON text
    of the post. The loader of lines 76-88 does not get there: it reads
    with ['ignore'], so that utf-8 hands out a text, the text is no JSON,
    and the loader prints that the file could not be decoded as JSON and
    returns. The line of the fall-through is not printed, utf-16 is not
    tried, and [process_posts] ends without a post, a call to the model or
    a file. *)
Theorem utf16_file_is_not_loaded :
  let bs := utf16_file Example.one_post_text in
  let w := Example.world bs [Example.reply_tags_only; Example.reply_empty_map] in
  py_read_text Utf8 Strict bs = Raise UnicodeDecodeError
  /\ py_read_text Utf16 Strict bs = Ok Example.one_post_text
  /\ py_read_text Utf16 Ignore bs = Ok Example.one_post_text
  /\ Example.parse Example.one_post_text = Some Example.one_post
  /\ (exists s, py_read_text Utf8 Ignore bs = Ok s /\ Example.parse s = None)
  /\ load_batch Example.raw_path w = (Ok None, with_stdout [not_json] w)
  /\ process_posts Example.raw_path default_processed_file_path w
     = (Ok tt, with_stdout [not_json] w).
Proof.
  intros bs w.
  split; [vm_compute; reflexivity|].
  split; [vm_compute; reflexivity|].
  split; [vm_compute; reflexivity|].
  split; [vm_compute; reflexivity|].
  split; [eexists; split; vm_compute; reflexivity|].
  split; reflexivity.
Qed.

(** ** The scenarios of the specification *)

(** The emoji of a post are taken out before the text goes to the model. *)
Example great_day_cleaned :
  remove_emoji (lit "Great day! " ++ [0x1F600; 0x1F680]) = lit "Great day! ".
Proof. vm_compute. reflexivity. Qed.

(** Every range of the pattern lies inside the last one or next to it:
    a character below U+24C2 or above U+1F6FF is never removed. *)
Example in_class_bounds :
  forall c, Emoji.in_class c = true -> 0x24C2 <= c <= 0x1F6FF.
Proof.
  intros c H. unfold Emoji.in_class, Emoji.ranges, Emoji.in_range in H. simpl in H.
  repeat (apply orb_prop in H as [H|H]); try discriminate;
    apply andb_prop in H as [H1 H2]; lia.
Qed.

(** Two posts tagged [Jobseekers] and [Job Hunting], unified to
    [Job Search]: both end with the single tag [Job Search], their text
    cleaned and their other fields kept. *)
Example both_posts_end_with_job_search :
  fst (enrich_batch Example.raw_path
         (Example.world (Example.bytes_of Example.two_posts_text)
            [Example.reply_a; Example.reply_b; Example.reply_unified]))
  = Ok (Some
      [ [ (lit "text", JStr (lit "Open to work "));
          (lit "likes", JInt 7);
          (lit "line_count", JInt 1);
          (lit "language", JStr (lit "English"));
          (lit "tags", JArr [JStr (lit "Job Search")]) ];
        [ (lit "text", JStr (lit "Still hunting"));
          (lit "line_count", JInt 1);
          (lit "language", JStr (lit "English"));
          (lit "tags", JArr [JStr (lit "Job Search")]) ] ]).
Proof. vm_compute. reflexivity. Qed.

(** A refusal in place of the first reply: the parse error leaves
    [process_posts] and there is no output file. *)
Example refusal_leaves_no_file :
  let r := process_posts Example.raw_path default_processed_file_path
             (Example.world (Example.bytes_of Example.two_posts_text) [Example.refusal]) in
  fst r = Raise (OutputParserException (lit "Context is too big, unable to process"))
  /\ files (snd r) !! default_processed_file_path = None.
Proof. split; vm_compute; reflexivity. Qed.

(** * Further properties of the code *)

(** ** remove_emoji *)

(** X1. [remove_emoji] keeps, in their order, exactly the characters that
    are outside the class of the pattern: replacing every run by the empty
    string comes to the same as filtering character by character. *)
Theorem remove_emoji_keeps_the_rest (s : text) :
  remove_emoji s = List.filter (fun c => negb (Emoji.in_class c)) s.
Proof. unfold remove_emoji. apply re_sub_empty_filter. Qed.

(** X2. Cleaning a text piece by piece gives the cleaned text: a run of
    emoji that straddles the cut is removed all the same. *)
Theorem remove_emoji_app (a b : text) :
  remove_emoji (a ++ b) = remove_emoji a ++ remove_emoji b.
Proof.
  unfold remove_emoji. rewrite !re_sub_empty_filter. apply List.filter_app.
Qed.

(** X3. The characters that the pattern removes are those of three
    intervals: U+24C2..U+1F251 (the last range of the pattern, which
    contains its fifth and fourth and with them the CJK, Hangul and
    private-use blocks), U+1F300..U+1F64F and U+1F680..U+1F6FF. Anything
    below U+24C2 or above U+1F6FF stays. *)
Theorem in_class_intervals (c : codepoint) :
  Emoji.in_class c = true
  <-> 0x24C2 <= c <= 0x1F251 \/ 0x1F300 <= c <= 0x1F64F \/ 0x1F680 <= c <= 0x1F6FF.
Proof.
  unfold Emoji.in_class, Emoji.ranges, Emoji.in_range. simpl.
  rewrite !orb_true_iff, !andb_true_iff, !Z.leb_le. split.
  - intros H. lia.
  - intros H.
    destruct (Z_le_gt_dec 0x1F600 c), (Z_le_gt_dec c 0x1F64F),
             (Z_le_gt_dec 0x1F300 c), (Z_le_gt_dec c 0x1F5FF),
             (Z_le_gt_dec 0x1F680 c), (Z_le_gt_dec c 0x1F6FF),
             (Z_le_gt_dec 0x24C2 c), (Z_le_gt_dec c 0x1F251);
      try lia; auto 20.
Qed.

(** ** What a run touches *)

Section Frames.

Context `{P : Platform}.

Lemma with_llm_self (w : World) : with_llm (llm w) w = w.
Proof. destruct w. reflexivity. Qed.

Lemma with_stdout_self (w : World) : with_stdout (stdout w) w = w.
Proof. destruct w. reflexivity. Qed.

Lemma only_llm_pure {A} (r : result A) : only_llm (lift r).
Proof. intros w. exists (llm w). symmetry. apply with_llm_self. Qed.

Lemma only_llm_ret {A} (a : A) : only_llm (ret a).
Proof. intros w. exists (llm w). symmetry. apply with_llm_self. Qed.

Lemma only_llm_raise {A} e : only_llm (@raise _ A e).
Proof. intros w. exists (llm w). symmetry. apply with_llm_self. Qed.

Lemma only_llm_invoke prompt : only_llm (invoke prompt).
Proof.
  intros w. unfold invoke.
  destruct (llm_invoke (llm w) prompt) as [[reply|] s]; exists s; reflexivity.
Qed.

Lemma only_llm_bind {A B} (c : M A) (k : A -> M B) :
  only_llm c -> (forall a, only_llm (k a)) -> only_llm (bind c k).
Proof.
  intros Hc Hk w. unfold bind. destruct (Hc w) as [s Hs].
  destruct (c w) as [[a|e] w1]; simpl in Hs; subst w1.
  - destruct (Hk a (with_llm s w)) as [s' Hs']. exists s'. rewrite Hs'. reflexivity.
  - exists s. reflexivity.
Qed.

Lemma only_llm_extract_metadata post : only_llm (extract_metadata post).
Proof.
  unfold extract_metadata.
  apply only_llm_bind; [apply only_llm_pure|]. intros prompt.
  apply only_llm_bind; [apply only_llm_invoke|]. intros reply.
  destruct (output_parse reply); [apply only_llm_ret|apply only_llm_raise].
Qed.

Lemma only_llm_get_unified_tags posts : only_llm (get_unified_tags posts).
Proof.
  unfold get_unified_tags.
  do 3 (apply only_llm_bind; [apply only_llm_pure|]; intros ?).
  apply only_llm_bind; [apply only_llm_invoke|]. intros reply.
  destruct (output_parse reply); [apply only_llm_ret|apply only_llm_raise].
Qed.

Lemma only_llm_enrich_post post : only_llm (enrich_post post).
Proof.
  unfold enrich_post.
  do 3 (apply only_llm_bind; [apply only_llm_pure|]; intros ?).
  apply only_llm_bind; [apply only_llm_extract_metadata|]. intros md.
  apply only_llm_pure.
Qed.

Lemma only_llm_enrich_posts posts : only_llm (enrich_posts posts).
Proof.
  induction posts as [|p rest IH]; simpl; [apply only_llm_ret|].
  apply only_llm_bind; [apply only_llm_enrich_post|]. intros e.
  apply only_llm_bind; [exact IH|]. intros r. apply only_llm_ret.
Qed.

Lemma only_stdout_load_loop raw encs : only_stdout (load_loop raw encs).
Proof.
  induction encs as [|enc rest IH]; intros w; simpl.
  - eexists. reflexivity.
  - unfold bind at 1. unfold read_bytes. destruct (files w !! raw) as [bs|].
    + destruct (read_text enc Ignore bs) as [s|e].
      * destruct (json_loads s).
        -- exists (stdout w). symmetry. apply with_stdout_self.
        -- eexists. reflexivity.
      * assert (Hother : exists out, snd (@raise _ (option json) e w) = with_stdout out w).
        { exists (stdout w). symmetry. apply with_stdout_self. }
        destruct e; try exact Hother.
        unfold bind, print.
        match goal with
        | |- context [load_loop raw rest ?w'] => destruct (IH w') as [out Hout]
        end.
        exists out. rewrite Hout. reflexivity.
    + exists (stdout w). symmetry. apply with_stdout_self.
Qed.

(** X4. The loader never calls the model and leaves the files alone: it
    changes nothing but the printed lines. The two loops and the unifier
    print nothing and leave the files alone: they change nothing but the
    state of the model. *)
Theorem loader_prints_enrichment_calls :
  (forall raw, only_stdout (load_batch raw))
  /\ (forall post, only_llm (extract_metadata post))
  /\ (forall posts, only_llm (enrich_posts posts))
  /\ (forall enriched, only_llm (get_unified_tags enriched)).
Proof.
  split; [|split; [|split]].
  - intros raw. apply only_stdout_load_loop.
  - apply only_llm_extract_metadata.
  - apply only_llm_enrich_posts.
  - apply only_llm_get_unified_tags.
Qed.

(** X5. When the input file does not exist, [process_posts] raises the
    error of [open] at the first attempt: it prints nothing, does not try
    the other encodings and changes nothing. *)
Theorem missing_input_file_raises raw out w :
  files w !! raw = None ->
  process_posts raw out w = (Raise OSError, w).
Proof.
  intros Hnone.
  assert (Hl : load_batch raw w = (Raise OSError, w)).
  { unfold load_batch, encodings. simpl. apply bind_raise.
    unfold read_bytes. rewrite Hnone. reflexivity. }
  unfold process_posts, enrich_batch.
  apply bind_raise. apply bind_raise. exact Hl.
Qed.


(** X7. An exception raised while a post is enriched, whatever it is,
    ends [process_posts] with that exception in the world the post left:
    the posts after it are not processed and no file changes. *)
Theorem exception_at_a_post_aborts raw out w posts w0 before post after done w1 e w2 :
  load_batch raw w = (Ok (Some posts), w0) ->
  iter posts = Ok (before ++ post :: after) ->
  enrich_posts before w0 = (Ok done, w1) ->
  enrich_post post w1 = (Raise e, w2) ->
  process_posts raw out w = (Raise e, w2) /\ files w2 = files w.
Proof.
  intros Hl Hi Hb Hp.
  eapply process_posts_abort_in_loop; [exact Hl|exact Hi|].
  eapply enrich_posts_abort; eassumption.
Qed.

(** X8. How a post fails in the first loop. A post that is no object, or
    whose [text] is no string, raises [TypeError], and a post without
    [text] raises [KeyError], each before the model is asked; a reply that
    parses to something other than an object raises [TypeError] after the
    model has answered. *)
Theorem enrich_post_errors :
  (forall d w, Dict.get (lit "text") d = None ->
     enrich_post (JObj d) w = (Raise (KeyError (lit "text")), w))
  /\ (forall post w, (forall d, post <> JObj d) ->
     enrich_post post w = (Raise TypeError, w))
  /\ (forall d v w, Dict.get (lit "text") d = Some v -> (forall s, v <> JStr s) ->
     enrich_post (JObj d) w = (Raise TypeError, w))
  /\ (forall d s w reply st v,
     Dict.get (lit "text") d = Some (JStr s) ->
     llm_invoke (llm w) (extract_prompt (remove_emoji s)) = (Some reply, st) ->
     output_parse reply = Some v ->
     (forall md, v <> JObj md) ->
     enrich_post (JObj d) w = (Raise TypeError, with_llm st w)).
Proof.
  split; [|split; [|split]].
  - intros d w Hd. unfold enrich_post. apply bind_raise.
    unfold lift. simpl. rewrite Hd. reflexivity.
  - intros post w Hp. unfold enrich_post. apply bind_raise. unfold lift.
    destruct post; try reflexivity. exfalso. eapply Hp. reflexivity.
  - intros d v w Hd Hv. unfold enrich_post.
    rewrite (bind_ok (lift _) _ w v w) by (unfold lift; simpl; rewrite Hd; reflexivity).
    apply bind_raise. unfold lift.
    destruct v; try reflexivity. exfalso. eapply Hv. reflexivity.
  - intros d s w reply st v Hd Hl Hp Hv. unfold enrich_post.
    rewrite (bind_ok (lift _) _ w (JStr s) w) by (unfold lift; simpl; rewrite Hd; reflexivity).
    rewrite (bind_ok (lift _) _ w (remove_emoji s) w) by reflexivity.
    rewrite (bind_ok (lift _) _ w (Dict.set (lit "text") (JStr (remove_emoji s)) d) w)
      by reflexivity.
    assert (He : extract_metadata (remove_emoji s) w = (Ok v, with_llm st w)).
    { unfold extract_metadata.
      destruct (format_extract_total (remove_emoji s)) as [prompt Hf].
      assert (Hprompt : extract_prompt (remove_emoji s) = prompt).
      { unfold extract_prompt. rewrite Hf. reflexivity. }
      rewrite Hprompt in Hl.
      rewrite (bind_ok (lift _) _ w prompt w) by (unfold lift; rewrite Hf; reflexivity).
      rewrite (bind_ok (invoke prompt) _ w reply (with_llm st w))
        by (unfold invoke; rewrite Hl; reflexivity).
      rewrite Hp. reflexivity. }
    rewrite (bind_ok _ _ _ _ _ He). unfold lift.
    destruct v; try reflexivity. exfalso. eapply Hv. reflexivity.
Qed.

End Frames.

(** ** The unifier and the tags *)

Section Unifier.

Context `{P : Platform}.

Lemma set_order_nil : set_order [] = [].
Proof.
  apply Permutation_nil. apply Permutation_sym. apply set_order_perm.
Qed.

Lemma str_join_not_str sep x : forall l,
  In x l -> (forall t, x <> JStr t) -> str_join sep l = Raise TypeError.
Proof.
  induction l as [|y r IH]; intros Hin Hx; [destruct Hin|].
  destruct y as [| | | |s| |]; try reflexivity.
  destruct Hin as [<-|Hin]; [exfalso; eapply Hx; reflexivity|].
  destruct r as [|z r']; [destruct Hin|].
  change (str_join sep (JStr s :: z :: r'))
    with (result_bind (str_join sep (z :: r')) (fun t => Ok (s ++ sep ++ t))).
  rewrite (IH Hin Hx). reflexivity.
Qed.

Lemma update_fold xs : forall s s',
  PySet.update s xs = Ok s' ->
  s' = fold_left (fun s x => PySet.add x s) xs s
  /\ Forall (fun v => is_hashable v = true) xs.
Proof.
  induction xs as [|x r IH]; simpl; intros s s' H.
  - inversion H. split; [reflexivity|constructor].
  - destruct (is_hashable x) eqn:Hx; [|discriminate].
    apply IH in H as [-> Hr]. split; [reflexivity|constructor; assumption].
Qed.

Lemma collect_tags_union posts : forall acc s,
  collect_tags acc posts = Ok s ->
  (forall x, In x s ->
     In x acc
     \/ exists post tags items,
          In post posts /\ Dict.get (lit "tags") post = Some tags
          /\ iter tags = Ok items /\ In x items)
  /\ (forall y, In y acc -> In y s)
  /\ (forall post tags items x,
        In post posts -> Dict.get (lit "tags") post = Some tags ->
        iter tags = Ok items -> In x items ->
        exists y, In y s /\ (y = x \/ py_eq x y = true))
  /\ (distinct acc -> distinct s).
Proof.
  induction posts as [|p rest IH]; simpl; intros acc s H.
  - inversion H; subst s. repeat split; auto.
    intros post tags items x [].
  - destruct (Dict.get (lit "tags") p) as [tags|] eqn:Hp; [|discriminate]. simpl in H.
    destruct (iter tags) as [items|] eqn:Hi; [|discriminate]. simpl in H.
    destruct (PySet.update acc items) as [acc'|] eqn:Hu; [|discriminate]. simpl in H.
    apply update_fold in Hu as [-> Hh].
    destruct (IH _ _ H) as (H1 & H2 & H3 & H4).
    split; [|split; [|split]].
    + intros x Hx. destruct (H1 x Hx) as [Hacc|(post & t & it & Hin & Hg & Hit & Hxi)].
      * apply fold_add_in in Hacc as [Hacc|Hitems]; [left; exact Hacc|].
        right. exists p, tags, items. auto.
      * right. exists post, t, it. auto.
    + intros y Hy. apply H2. apply fold_add_keeps. exact Hy.
    + intros post t it x [<-|Hin] Hg Hit Hxi.
      * rewrite Hp in Hg. inversion Hg; subst t. rewrite Hi in Hit. inversion Hit; subst it.
        destruct (fold_add_covers items acc x Hxi Hh) as [y [Hy He]].
        exists y. split; [apply H2; exact Hy|exact He].
      * eapply H3; eauto.
    + intros Hd. apply H4. apply fold_add_distinct. exact Hd.
Qed.

(** X9. For an input without posts the unifier is asked all the same,
    with an empty list of tags. Its reply has to parse but is not used:
    whatever value it parses to, the empty batch is written; if it does
    not parse, the run ends with the parse error. *)
Theorem empty_batch_still_asks_the_model raw out w posts w0 :
  load_batch raw w = (Ok (Some posts), w0) ->
  iter posts = Ok [] ->
  (forall reply st v,
     llm_invoke (llm w0) (unify_prompt []) = (Some reply, st) ->
     output_parse reply = Some v ->
     process_posts raw out w = write_batch out [] (with_llm st w0))
  /\ (forall reply st,
     llm_invoke (llm w0) (unify_prompt []) = (Some reply, st) ->
     output_parse reply = None ->
     process_posts raw out w
     = (Raise (OutputParserException (lit "Context is too big, unable to process")),
        with_llm st w0)).
Proof.
  intros Hl Hi.
  destruct (format_unify_total []) as [prompt Hf].
  assert (Hprompt : unify_prompt [] = prompt) by (unfold unify_prompt; rewrite Hf; reflexivity).
  assert (Hu : forall reply st,
            llm_invoke (llm w0) (unify_prompt []) = (Some reply, st) ->
            get_unified_tags [] w0
            = match output_parse reply with
              | Some v => (Ok v, with_llm st w0)
              | None =>
                  (Raise (OutputParserException
                            (lit "Context is too big, unable to process")),
                   with_llm st w0)
              end).
  { intros reply st Hm. rewrite Hprompt in Hm. unfold get_unified_tags.
    rewrite (bind_ok (lift (collect_tags [] [])) _ w0 ([] : PySet.t) w0) by reflexivity.
    rewrite (bind_ok (lift (str_join (lit ",") (set_order []))) _ w0 ([] : text) w0)
      by (unfold lift; rewrite set_order_nil; reflexivity).
    rewrite (bind_ok (lift _) _ w0 prompt w0) by (unfold lift; rewrite Hf; reflexivity).
    rewrite (bind_ok (invoke prompt) _ w0 reply (with_llm st w0))
      by (unfold invoke; rewrite Hm; reflexivity).
    destruct (output_parse reply); reflexivity. }
  assert (Hstart : forall k : list dict -> M (option (list dict)),
            bind (load_batch raw) (fun loaded =>
              match loaded with
              | None => ret None
              | Some posts =>
                  bind (lift (iter posts)) (fun items =>
                  bind (enrich_posts items) k)
              end) w
            = k [] w0).
  { intros k. rewrite (bind_ok _ _ _ _ _ Hl).
    rewrite (bind_ok (lift (iter posts)) _ w0 [] w0) by (unfold lift; rewrite Hi; reflexivity).
    reflexivity. }
  split.
  - intros reply st v Hm Hp. specialize (Hu reply st Hm). rewrite Hp in Hu.
    unfold process_posts, enrich_batch. unfold bind at 1. rewrite Hstart.
    rewrite (bind_ok _ _ _ _ _ Hu). reflexivity.
  - intros reply st Hm Hp. specialize (Hu reply st Hm). rewrite Hp in Hu.
    unfold process_posts, enrich_batch. unfold bind at 1. rewrite Hstart.
    rewrite (bind_raise _ _ _ _ _ Hu). reflexivity.
Qed.

(** X10. A tag that is not a string (a number, [true], [null]) gets into
    the set of tags, and [','.join] then raises [TypeError]: the run ends
    before the unifier is asked, in the world it started from. *)
Theorem non_string_tag_raises_before_the_unifier posts s x w :
  collect_tags [] posts = Ok s ->
  In x s ->
  (forall t, x <> JStr t) ->
  get_unified_tags posts w = (Raise TypeError, w).
Proof.
  intros Hc Hx Hns. unfold get_unified_tags.
  rewrite (bind_ok (lift _) _ w s w) by (unfold lift; rewrite Hc; reflexivity).
  apply bind_raise. unfold lift.
  rewrite (str_join_not_str _ x); [reflexivity| |exact Hns].
  eapply Permutation_in; [apply Permutation_sym; apply set_order_perm|exact Hx].
Qed.

(** X11. The set that lines 42-44 build is the union of the tags of the
    posts with duplicates collapsed: each member is a tag of some post,
    each tag of each post is in the set or equal to a member, and no
    member equals another. *)
Theorem unique_tags_is_the_union posts s :
  collect_tags [] posts = Ok s ->
  (forall x, In x s ->
     exists post tags items,
       In post posts /\ Dict.get (lit "tags") post = Some tags
       /\ iter tags = Ok items /\ In x items)
  /\ (forall post tags items x,
        In post posts -> Dict.get (lit "tags") post = Some tags ->
        iter tags = Ok items -> In x items ->
        exists y, In y s /\ (y = x \/ py_eq x y = true))
  /\ distinct s.
Proof.
  intros H. destruct (collect_tags_union posts [] s H) as (H1 & _ & H3 & H4).
  split; [|split].
  - intros x Hx. destruct (H1 x Hx) as [[]|Hex]. exact Hex.
  - exact H3.
  - apply H4. exact I.
Qed.

(** X12. What a field of a written post holds. For a post [d] with text
    [s], merged with the metadata [md] and rewritten: a field other than
    [tags] has the value the reply gave it, if the reply has that key;
    otherwise [text] is the cleaned text and any other field is as in the
    input. A reply with a key [text] thus replaces the post's text. *)
Theorem fields_of_a_written_post unified d s md out (k : text) :
  rewrite_post unified (Dict.merge (Dict.set (lit "text") (JStr (remove_emoji s)) d) md)
    = Ok out ->
  k <> lit "tags" ->
  Dict.get k out
  = match Dict.get k (rev md) with
    | Some v => Some v
    | None => if text_eqb k (lit "text") then Some (JStr (remove_emoji s)) else Dict.get k d
    end.
Proof.
  intros Hr Hk. apply rewrite_post_tags in Hr as [_ Hr].
  rewrite (Hr k Hk), dict_get_merge.
  destruct (Dict.get k (rev md)); [reflexivity|].
  destruct (text_eqb k (lit "text")) eqn:E.
  - apply text_eqb_eq in E. subst k. apply dict_get_set_same.
  - apply dict_get_set_other. intros ->. rewrite text_eqb_refl in E. discriminate.
Qed.

(** X13. A reply of the unifier that parses to something other than an
    object is noticed only when a tag is looked up: the rewrite of a post
    with at least one tag raises [AttributeError], the rewrite of a post
    without tags succeeds and stores the empty list. *)
Theorem unifier_reply_that_is_no_mapping :
  (forall unified post current tag tags,
     (forall d, unified <> JObj d) ->
     Dict.get (lit "tags") post = Some current ->
     iter current = Ok (tag :: tags) ->
     rewrite_post unified post = Raise AttributeError)
  /\ (forall unified post current,
     Dict.get (lit "tags") post = Some current ->
     iter current = Ok [] ->
     rewrite_post unified post = Ok (Dict.set (lit "tags") (JArr []) post)).
Proof.
  split.
  - intros unified post current tag tags Hu Hg Hi.
    unfold rewrite_post. simpl. rewrite Hg. simpl. rewrite Hi. simpl.
    destruct unified; try reflexivity. exfalso. eapply Hu. reflexivity.
  - intros unified post current Hg Hi.
    unfold rewrite_post. simpl. rewrite Hg. simpl. rewrite Hi. simpl.
    rewrite set_order_nil. reflexivity.
Qed.

End Unifier.

(** ** Reading well-formed files *)

Lemma emit_ok c d s : emit c d = Ok s -> exists s', d = Ok s' /\ s = c :: s'.
Proof.
  destruct d as [s'|e]; simpl; intros H; inversion H. eauto.
Qed.

Lemma utf8_run_strict_ignore bs : forall st s,
  Utf8.run Strict st bs = Ok s -> Utf8.run Ignore st bs = Ok s.
Proof.
  induction bs as [|b r IH]; intros st s.
  - destruct st; simpl; [auto|discriminate].
  - assert (R : forall s,
        match Utf8.first b with
        | Utf8.Single c => emit c (Utf8.run Strict Utf8.Start r)
        | Utf8.Multi st' => Utf8.run Strict st' r
        | Utf8.InvalidStart => on_error Strict (Utf8.run Strict Utf8.Start r)
        end = Ok s ->
        match Utf8.first b with
        | Utf8.Single c => emit c (Utf8.run Ignore Utf8.Start r)
        | Utf8.Multi st' => Utf8.run Ignore st' r
        | Utf8.InvalidStart => on_error Ignore (Utf8.run Ignore Utf8.Start r)
        end = Ok s).
    { intros s0. destruct (Utf8.first b) as [c|st'|]; simpl.
      - intros H. apply emit_ok in H as (s' & H & ->).
        rewrite (IH _ _ H). reflexivity.
      - apply IH.
      - discriminate. }
    destruct st as [|n acc lo hi]; simpl; [apply R|].
    destruct ((lo <=? b) && (b <=? hi))%bool; [|discriminate].
    destruct n as [|[|n]].
    + apply IH.
    + intros H. apply emit_ok in H as (s' & H & ->). rewrite (IH _ _ H). reflexivity.
    + apply IH.
Qed.

Lemma utf16_pairs_strict_ignore us : forall s,
  Utf16.pairs Strict us = Ok s -> Utf16.pairs Ignore us = Ok s.
Proof.
  assert (H : forall n us s, (length us <= n)%nat ->
                Utf16.pairs Strict us = Ok s -> Utf16.pairs Ignore us = Ok s).
  { induction n as [|n IH]; intros [|u r] s Hn; simpl in Hn; try lia; auto.
    simpl. destruct (Utf16.is_high u).
    - destruct r as [|v r']; [discriminate|]. simpl in Hn.
      destruct (Utf16.is_low v); [|discriminate].
      intros H. apply emit_ok in H as (s' & H & ->).
      rewrite (IH r' s') by (auto; lia). reflexivity.
    - destruct (Utf16.is_low u); [discriminate|].
      intros H. apply emit_ok in H as (s' & H & ->).
      rewrite (IH r s') by (auto; lia). reflexivity. }
  intros s. apply (H (length us)). lia.
Qed.

Lemma utf16_body_strict_ignore le bs s :
  Utf16.body Strict le bs = Ok s -> Utf16.body Ignore le bs = Ok s.
Proof.
  unfold Utf16.body. destruct (Utf16.units le bs) as [us odd].
  destruct (Utf16.pairs Strict us) as [s'|] eqn:Hp; [|discriminate].
  rewrite (utf16_pairs_strict_ignore _ _ Hp). simpl.
  destruct odd; [discriminate|auto].
Qed.

Lemma utf16_decode_strict_ignore bs s :
  Utf16.decode Strict bs = Ok s -> Utf16.decode Ignore bs = Ok s.
Proof.
  unfold Utf16.decode.
  assert (E : forall zs, result_bind (Utf16.body Strict true zs)
                           (fun _ => @Raise text UnicodeError) = Ok s ->
                         result_bind (Utf16.body Ignore true zs)
                           (fun _ => @Raise text UnicodeError) = Ok s).
  { intros zs. destruct (Utf16.body Strict true zs); discriminate. }
  repeat (match goal with
          | |- context [match ?x with _ => _ end] => destruct x
          end;
          try apply utf16_body_strict_ignore; try apply E).
Qed.

(** X14. A file that reads without error under the handler ['strict']
    reads as the same text under ['ignore']: the handler of line 78
    changes nothing for well-formed input, in any of the three
    encodings. *)
Theorem well_formed_file_reads_the_same e bs s :
  py_read_text e Strict bs = Ok s -> py_read_text e Ignore bs = Ok s.
Proof.
  unfold py_read_text.
  destruct (decode_bytes e Strict bs) as [t|] eqn:Hs; [|discriminate].
  assert (Hi : decode_bytes e Ignore bs = Ok t).
  { destruct e; simpl in *.
    - apply utf8_run_strict_ignore. exact Hs.
    - apply utf16_decode_strict_ignore. exact Hs.
    - exact Hs. }
  rewrite Hi. auto.
Qed.

(** ** The order and the keys of the fields *)

Lemma dict_keys_set_eq k v d :
  Dict.keys (Dict.set k v d)
  = if existsb (text_eqb k) (Dict.keys d) then Dict.keys d else Dict.keys d ++ [k].
Proof.
  induction d as [|[k' v'] r IH]; simpl; [reflexivity|].
  destruct (text_eqb k k') eqn:E; simpl.
  - apply text_eqb_eq in E. subst k'. reflexivity.
  - rewrite IH. destruct (existsb (text_eqb k) (Dict.keys r)); reflexivity.
Qed.

Lemma existsb_text_eqb_false k l : existsb (text_eqb k) l = false -> ~ In k l.
Proof.
  intros H Hin.
  assert (existsb (text_eqb k) l = true).
  { apply existsb_exists. exists k. split; [exact Hin|apply text_eqb_refl]. }
  congruence.
Qed.

Lemma nodup_snoc {A} (l : list A) x : List.NoDup l -> ~ In x l -> List.NoDup (l ++ [x]).
Proof.
  induction l as [|a l IH]; simpl; intros Hd Hx.
  - constructor; [intros []|constructor].
  - apply List.NoDup_cons_iff in Hd as [Ha Hl].
    apply List.NoDup_cons_iff. split.
    + intros Hin. apply in_app_or in Hin as [Hin|[<-|[]]]; auto.
    + apply IH; auto.
Qed.

Lemma dict_set_nodup k v d : List.NoDup (Dict.keys d) -> List.NoDup (Dict.keys (Dict.set k v d)).
Proof.
  intros Hd. rewrite dict_keys_set_eq.
  destruct (existsb (text_eqb k) (Dict.keys d)) eqn:E; [exact Hd|].
  apply nodup_snoc; [exact Hd|]. apply existsb_text_eqb_false. exact E.
Qed.

Lemma dict_set_extra k v d :
  exists extra, Dict.keys (Dict.set k v d) = Dict.keys d ++ extra
                /\ (forall x, In x extra -> x = k).
Proof.
  rewrite dict_keys_set_eq. destruct (existsb (text_eqb k) (Dict.keys d)).
  - exists []. rewrite app_nil_r. split; [reflexivity|intros x []].
  - exists [k]. split; [reflexivity|]. intros x [<-|[]]. reflexivity.
Qed.

Lemma dict_get_in_keys k d v : Dict.get k d = Some v -> existsb (text_eqb k) (Dict.keys d) = true.
Proof.
  induction d as [|[k' v'] r IH]; simpl; [discriminate|].
  destruct (text_eqb k k'); [reflexivity|exact IH].
Qed.

Lemma dict_merge_nodup b : forall a,
  List.NoDup (Dict.keys a) -> List.NoDup (Dict.keys (Dict.merge a b)).
Proof.
  unfold Dict.merge. induction b as [|[k v] b IH]; intros a Ha; simpl; [exact Ha|].
  apply IH. apply dict_set_nodup. exact Ha.
Qed.

Lemma dict_merge_extra b : forall a,
  exists extra, Dict.keys (Dict.merge a b) = Dict.keys a ++ extra
                /\ (forall x, In x extra -> In x (Dict.keys b)).
Proof.
  unfold Dict.merge. induction b as [|[k v] b IH]; intros a.
  - exists []. simpl. rewrite app_nil_r. split; [reflexivity|intros x []].
  - destruct (IH (Dict.set k v a)) as (e1 & H1 & S1).
    destruct (dict_set_extra k v a) as (e2 & H2 & S2).
    exists (e2 ++ e1). split.
    + change (fold_left (fun acc kv => Dict.set (fst kv) (snd kv) acc) ((k, v) :: b) a)
        with (fold_left (fun acc kv => Dict.set (fst kv) (snd kv) acc) b (Dict.set k v a)).
      rewrite H1, H2, app_assoc. reflexivity.
    + intros x Hx. apply in_app_or in Hx as [Hx|Hx].
      * left. symmetry. apply S2. exact Hx.
      * right. apply S1. exact Hx.
Qed.

Section Field_order.

Context `{P : Platform}.

Lemma rewrite_post_shape unified e out :
  rewrite_post unified e = Ok out ->
  exists tags, out = Dict.set (lit "tags") (JArr tags) e.
Proof.
  unfold rewrite_post. intros H.
  destruct (getitem (JObj e) (lit "tags")) as [current|]; [|discriminate].
  unfold result_bind in H at 1.
  destruct (iter current) as [tags|]; [|discriminate].
  unfold result_bind in H at 1.
  destruct (map_tags unified [] tags) as [new_tags|]; [|discriminate].
  unfold result_bind in H. inversion H. eauto.
Qed.

(** X15. A written post starts with the fields of the input post, in the
    order they had there; after them come fields that the reply added
    and, if it is new, [tags]. *)
Theorem input_fields_come_first unified d s md out :
  Dict.get (lit "text") d = Some (JStr s) ->
  rewrite_post unified (Dict.merge (Dict.set (lit "text") (JStr (remove_emoji s)) d) md)
    = Ok out ->
  exists extra,
    Dict.keys out = Dict.keys d ++ extra
    /\ (forall k, In k extra -> In k (Dict.keys md) \/ k = lit "tags").
Proof.
  intros Hd Hr. apply rewrite_post_shape in Hr as [tags ->].
  assert (Hset : Dict.keys (Dict.set (lit "text") (JStr (remove_emoji s)) d) = Dict.keys d).
  { rewrite dict_keys_set_eq, (dict_get_in_keys _ _ _ Hd). reflexivity. }
  destruct (dict_merge_extra md (Dict.set (lit "text") (JStr (remove_emoji s)) d))
    as (e1 & H1 & S1).
  destruct (dict_set_extra (lit "tags") (JArr tags)
              (Dict.merge (Dict.set (lit "text") (JStr (remove_emoji s)) d) md))
    as (e2 & H2 & S2).
  exists (e1 ++ e2). split.
  - rewrite H2, H1, Hset, app_assoc. reflexivity.
  - intros k Hk. apply in_app_or in Hk as [Hk|Hk]; [left; apply S1|right; apply S2]; exact Hk.
Qed.

(** X16. If no key occurs twice in the input post, none does in the
    written post: cleaning the text, merging the reply and storing the
    tags replace a field or append one, and never repeat a key. *)
Theorem written_post_has_distinct_keys unified d s md out :
  List.NoDup (Dict.keys d) ->
  rewrite_post unified (Dict.merge (Dict.set (lit "text") (JStr (remove_emoji s)) d) md)
    = Ok out ->
  List.NoDup (Dict.keys out).
Proof.
  intros Hd Hr. apply rewrite_post_shape in Hr as [tags ->].
  apply dict_set_nodup, dict_merge_nodup, dict_set_nodup. exact Hd.
Qed.

End Field_order.

(** ** The calls to the model *)

Section Calls.

Variable P : Platform.

Abbreviation L := (logging P).

Lemma invoke_logs prompt (w : @World L) :
  prompts_sent (snd (invoke prompt w)) = prompts_sent w ++ [prompt].
Proof.
  unfold invoke, prompts_sent. simpl.
  destruct (@llm_invoke P (fst (llm w)) prompt) as [[reply|] st]; reflexivity.
Qed.

Lemma extract_metadata_logs post (w : @World L) :
  prompts_sent (snd (extract_metadata post w)) = prompts_sent w ++ [extract_prompt post].
Proof.
  unfold extract_metadata.
  destruct (format_extract_total post) as [prompt Hf].
  assert (Hp : extract_prompt post = prompt) by (unfold extract_prompt; rewrite Hf; reflexivity).
  rewrite (bind_ok (lift _) _ w prompt w) by (unfold lift; rewrite Hf; reflexivity).
  rewrite Hp. pose proof (invoke_logs prompt w) as Hi.
  unfold bind. destruct (invoke prompt w) as [[reply|e] w1]; simpl in Hi; [|exact Hi].
  destruct (output_parse reply); exact Hi.
Qed.

Lemma enrich_posts_logs items : forall (w : @World L) enriched w',
  enrich_posts items w = (Ok enriched, w') ->
  exists texts,
    Forall2 (fun item s => exists d, item = JObj d /\ Dict.get (lit "text") d = Some (JStr s))
      items texts
    /\ prompts_sent w'
       = prompts_sent w ++ List.map (fun s => extract_prompt (remove_emoji s)) texts.
Proof.
  induction items as [|p rest IH]; simpl; intros w enriched w' H.
  - apply ret_inv in H as [_ ->]. exists []. split; [constructor|].
    simpl. rewrite app_nil_r. reflexivity.
  - apply bind_ok_inv in H as (e & w1 & H1 & H).
    apply bind_ok_inv in H as (r & w2 & H2 & H).
    apply ret_inv in H as [_ ->].
    apply enrich_post_inv in H1 as (d & s & md & -> & Hd & Hm & _).
    pose proof (extract_metadata_logs (remove_emoji s) w) as Hlog. rewrite Hm in Hlog.
    simpl in Hlog.
    destruct (IH _ _ _ H2) as (texts & HF & Hrest).
    exists (s :: texts). split.
    + constructor; [eauto|exact HF].
    + rewrite Hrest, Hlog. simpl. rewrite <- app_assoc. reflexivity.
Qed.

Lemma get_unified_tags_logs enriched (w : @World L) unified w' :
  get_unified_tags enriched w = (Ok unified, w') ->
  exists tags joined,
    collect_tags [] enriched = Ok tags
    /\ str_join (lit ",") (set_order tags) = Ok joined
    /\ prompts_sent w' = prompts_sent w ++ [unify_prompt joined].
Proof.
  unfold get_unified_tags. intros H.
  apply bind_ok_inv in H as (tags & w1 & H1 & H). apply lift_ok_inv in H1 as [H1 ->].
  apply bind_ok_inv in H as (joined & w2 & H2 & H). apply lift_ok_inv in H2 as [H2 ->].
  apply bind_ok_inv in H as (prompt & w3 & H3 & H). apply lift_ok_inv in H3 as [H3 ->].
  exists tags, joined. split; [exact H1|]. split; [exact H2|].
  assert (Hp : unify_prompt joined = prompt) by (unfold unify_prompt; rewrite H3; reflexivity).
  rewrite Hp. pose proof (invoke_logs prompt w) as Hi.
  unfold bind in H. destruct (invoke prompt w) as [[reply|e] w4]; [|discriminate].
  simpl in Hi. destruct (output_parse reply); inversion H; subst. exact Hi.
Qed.

(** X17. A run that gets as far as the write has called the model once
    for each post, in the order of the posts and with the prompt made of
    the post's cleaned text, and then once more for the unifier, with the
    prompt made of the tags of the enriched posts, collected into a set
    and joined by commas: one call more than there are posts, none
    repeated and none in between. The write calls it no more. *)
Theorem one_call_per_post_and_one_more raw out (w : @World L) batch w1 :
  enrich_batch raw w = (Ok (Some batch), w1) ->
  exists posts w0 items texts enriched w2 tags joined,
    load_batch raw w = (Ok (Some posts), w0)
    /\ iter posts = Ok items
    /\ Forall2 (fun item s => exists d, item = JObj d /\ Dict.get (lit "text") d = Some (JStr s))
         items texts
    /\ enrich_posts items w0 = (Ok enriched, w2)
    /\ collect_tags [] enriched = Ok tags
    /\ str_join (lit ",") (set_order tags) = Ok joined
    /\ prompts_sent w1
       = prompts_sent w
         ++ List.map (fun s => extract_prompt (remove_emoji s)) texts
         ++ [unify_prompt joined]
    /\ length (List.map (fun s => extract_prompt (remove_emoji s)) texts
               ++ [unify_prompt joined]) = S (length items)
    /\ prompts_sent (snd (process_posts raw out w)) = prompts_sent w1.
Proof.
  intros Hb.
  destruct (enrich_batch_inv _ _ _ _ Hb)
    as (posts & w0 & items & enriched & w2 & unified & Hl & Hi & He & Hu & Hr).
  destruct (enrich_posts_logs _ _ _ _ He) as (texts & HF & Hlog1).
  destruct (get_unified_tags_logs _ _ _ _ Hu) as (tags & joined & Hc & Hj & Hlog2).
  assert (Hload : prompts_sent w0 = prompts_sent w).
  { destruct (only_stdout_load_loop raw encodings w) as [o Ho].
    unfold load_batch in Hl. rewrite Hl in Ho. simpl in Ho. subst w0. reflexivity. }
  exists posts, w0, items, texts, enriched, w2, tags, joined.
  split; [exact Hl|]. split; [exact Hi|]. split; [exact HF|].
  split; [exact He|]. split; [exact Hc|]. split; [exact Hj|]. split; [|split].
  - rewrite Hlog2, Hlog1, Hload, <- app_assoc. reflexivity.
  - rewrite length_app, length_map. simpl.
    apply Forall2_length in HF. lia.
  - pose proof (process_posts_cases raw out w) as Hc'. rewrite Hb in Hc'. rewrite Hc'.
    unfold write_batch. destruct (writable w1 out); [|reflexivity].
    destruct (json_dump _); reflexivity.
Qed.

End Calls.

(** ** The further properties at work *)

Lemma missing_input_file_raises_witness :
  let w := Example.world [] [] in
  process_posts (lit "data/nothing.json") default_processed_file_path w = (Raise OSError, w).
Proof.
  intros w. apply (missing_input_file_raises (P := Example.platform)). reflexivity.
Defined.


Lemma exception_at_a_post_aborts_witness :
  let w := Example.world (Example.bytes_of Example.two_posts_text)
             [Example.reply_a; Example.refusal] in
  fst (process_posts Example.raw_path default_processed_file_path w)
  = Raise (OutputParserException (lit "Context is too big, unable to process")).
Proof.
  intros w.
  edestruct (exception_at_a_post_aborts (P := Example.platform)
               Example.raw_path default_processed_file_path w) as [H _].
  - run_lhs.
  - instantiate (3 := [_]). reflexivity.
  - run_lhs.
  - run_lhs.
  - rewrite H. reflexivity.
Defined.

Lemma enrich_post_errors_witness :
  let w := Example.world [] [Example.one_post_text] in
  enrich_post (JObj [(lit "likes", JInt 7)]) w = (Raise (KeyError (lit "text")), w)
  /\ enrich_post JNull w = (Raise TypeError, w)
  /\ enrich_post (JObj [(lit "text", JInt 7)]) w = (Raise TypeError, w)
  /\ enrich_post (JObj [(lit "text", JStr (lit "Hello"))]) w
     = (Raise TypeError, @with_llm Example.platform ([] : list text) w).
Proof.
  intros w.
  destruct (enrich_post_errors (P := Example.platform)) as (Ha & Hb & Hc & Hd).
  split; [|split; [|split]].
  - apply Ha. reflexivity.
  - apply Hb. intros d. discriminate.
  - apply (Hc _ (JInt 7)); [reflexivity|]. intros s. discriminate.
  - apply (Hd _ (lit "Hello") w Example.one_post_text ([] : list text) Example.one_post).
    + reflexivity.
    + vm_compute. reflexivity.
    + vm_compute. reflexivity.
    + intros md. discriminate.
Defined.

(** The file holds an empty object and the unifier answers with an
    array: the empty batch is written. *)
Lemma empty_batch_still_asks_the_model_witness :
  let w := Example.world (Example.bytes_of Example.reply_empty_map) [Example.one_post_text] in
  process_posts Example.raw_path default_processed_file_path w
  = write_batch default_processed_file_path []
      (@with_llm Example.platform ([] : list text) w).
Proof.
  intros w.
  destruct (empty_batch_still_asks_the_model (P := Example.platform)
              Example.raw_path default_processed_file_path w (JObj []) w) as [H _].
  - reflexivity.
  - reflexivity.
  - apply (H Example.one_post_text ([] : list text) Example.one_post).
    + reflexivity.
    + vm_compute. reflexivity.
Defined.

Lemma non_string_tag_raises_before_the_unifier_witness :
  let w := Example.world [] [Example.reply_unified] in
  get_unified_tags [ [(lit "tags", JArr [JStr (lit "Jobs"); JInt 3])] ] w
  = (Raise TypeError, w).
Proof.
  intros w.
  apply (non_string_tag_raises_before_the_unifier (P := Example.platform)
           _ [JStr (lit "Jobs"); JInt 3] (JInt 3)).
  - reflexivity.
  - right. left. reflexivity.
  - intros t. discriminate.
Defined.

Lemma unique_tags_is_the_union_witness :
  distinct [JStr (lit "Jobs"); JStr (lit "Hiring")].
Proof.
  apply (unique_tags_is_the_union
           [ [(lit "tags", JArr [JStr (lit "Jobs"); JStr (lit "Hiring")])];
             [(lit "tags", JArr [JStr (lit "Jobs")])] ]).
  reflexivity.
Defined.

(** A reply with the keys [text] and [tags]: the written text is the
    reply's. *)
Lemma fields_of_a_written_post_witness :
  let d := [(lit "text", JStr (lit "Hello"))] in
  let md := [(lit "text", JStr (lit "Bye")); (lit "tags", JArr [])] in
  Dict.get (lit "text") [(lit "text", JStr (lit "Bye")); (lit "tags", JArr [])]
  = match Dict.get (lit "text") (rev md) with
    | Some v => Some v
    | None =>
        if text_eqb (lit "text") (lit "text")
        then Some (JStr (remove_emoji (lit "Hello")))
        else Dict.get (lit "text") d
    end.
Proof.
  intros d md.
  apply (fields_of_a_written_post (P := Example.platform) (JObj []) d (lit "Hello") md).
  - vm_compute. reflexivity.
  - intros H. vm_compute in H. discriminate.
Defined.

Lemma unifier_reply_that_is_no_mapping_witness :
  rewrite_post (P := Example.platform) (JArr [])
    [(lit "tags", JArr [JStr (lit "Jobs")])] = Raise AttributeError
  /\ rewrite_post (P := Example.platform) (JArr []) [(lit "tags", JArr [])]
     = Ok (Dict.set (lit "tags") (JArr []) [(lit "tags", JArr [])]).
Proof.
  destruct (unifier_reply_that_is_no_mapping (P := Example.platform)) as [Ha Hb].
  split.
  - apply (Ha _ _ (JArr [JStr (lit "Jobs")]) (JStr (lit "Jobs")) []).
    + intros d. discriminate.
    + reflexivity.
    + reflexivity.
  - apply (Hb _ _ (JArr [])); reflexivity.
Defined.

Lemma well_formed_file_reads_the_same_witness :
  py_read_text Utf8 Ignore (Example.bytes_of Example.two_posts_text)
  = Ok Example.two_posts_text.
Proof.
  apply well_formed_file_reads_the_same. vm_compute. reflexivity.
Defined.

Lemma input_fields_come_first_witness :
  let d := [(lit "text", JStr (lit "Hello")); (lit "likes", JInt 7)] in
  let md := [(lit "line_count", JInt 1); (lit "tags", JArr [])] in
  let out := [(lit "text", JStr (lit "Hello")); (lit "likes", JInt 7);
              (lit "line_count", JInt 1); (lit "tags", JArr [])] in
  exists extra,
    Dict.keys out = Dict.keys d ++ extra
    /\ (forall k, In k extra -> In k (Dict.keys md) \/ k = lit "tags").
Proof.
  intros d md out.
  apply (input_fields_come_first (P := Example.platform) (JObj []) d (lit "Hello") md out).
  - reflexivity.
  - vm_compute. reflexivity.
Defined.

Lemma written_post_has_distinct_keys_witness :
  let out := [(lit "text", JStr (lit "Hello")); (lit "likes", JInt 7);
              (lit "line_count", JInt 1); (lit "tags", JArr [])] in
  List.NoDup (Dict.keys out).
Proof.
  intros out.
  apply (written_post_has_distinct_keys (P := Example.platform) (JObj [])
           [(lit "text", JStr (lit "Hello")); (lit "likes", JInt 7)] (lit "Hello")
           [(lit "line_count", JInt 1); (lit "tags", JArr [])] out).
  - repeat constructor; simpl; intros H; repeat destruct H as [H|H]; try discriminate; auto.
  - vm_compute. reflexivity.
Defined.

Lemma one_call_per_post_and_one_more_witness :
  let w := @Build_World (logging Example.platform)
             {[ Example.raw_path := Example.bytes_of Example.two_posts_text ]}
             (fun _ => true) []
             ([Example.reply_a; Example.reply_b; Example.reply_unified], []) in
  exists batch w1,
    enrich_batch Example.raw_path w = (Ok (Some batch), w1)
    /\ prompts_sent w1
       = [ extract_prompt (lit "Open to work ");
           extract_prompt (lit "Still hunting");
           unify_prompt (lit "Jobseekers,Job Hunting") ].
Proof.
  intros w.
  assert (H : exists batch w1, enrich_batch Example.raw_path w = (Ok (Some batch), w1)).
  { eexists. eexists. run_lhs. }
  destruct H as (batch & w1 & Hb).
  destruct (one_call_per_post_and_one_more Example.platform
              Example.raw_path default_processed_file_path w batch w1 Hb)
    as (posts & w0 & items & texts & enriched & w2 & tags & joined
        & Hl & Hi & HF & He & Hc & Hj & Hlog & _).
  exists batch, w1. split; [exact Hb|].
  assert (El : load_batch Example.raw_path w = (Ok (Some Example.two_posts), w))
    by reflexivity.
  rewrite El in Hl. inversion Hl; subst posts w0. simpl in Hi. inversion Hi; subst items.
  inversion HF as [|? s1 ? t1 (d1 & E1 & G1) HF1]; subst.
  inversion HF1 as [|? s2 ? t2 (d2 & E2 & G2) HF2]; subst.
  inversion HF2; subst.
  inversion E1; subst d1. inversion E2; subst d2.
  vm_compute in G1. vm_compute in G2. inversion G1; subst s1. inversion G2; subst s2.
  assert (Ee : exists e' w', enrich_posts
                 [ JObj [ (lit "text", JStr (lit "Open to work " ++ [0x1F600; 0x1F680]));
                          (lit "likes", JInt 7) ];
                   JObj [ (lit "text", JStr (lit "Still hunting")) ] ] w = (Ok e', w')
               /\ collect_tags [] e' = Ok [JStr (lit "Jobseekers"); JStr (lit "Job Hunting")]).
  { eexists. eexists. split; [run_lhs|vm_compute; reflexivity]. }
  destruct Ee as (e' & w' & Ee & Ec).
  assert (Heq : (Ok e', w') = (Ok enriched, w2)) by (rewrite <- Ee; exact He).
  injection Heq as He' _. subst enriched.
  rewrite Ec in Hc. injection Hc as <-.
  vm_compute in Hj. injection Hj as <-.
  rewrite Hlog. reflexivity.
Defined.

(** ** More edges of the batch *)

Section Edges.

Context `{P : Platform}.

(** X18. When the output path cannot be opened for writing, the run
    raises the error of [open] only after every post has been enriched
    and the unifier asked: the state of the model is the one after all
    the calls, and no file has changed. *)
Theorem unwritable_output_raises_at_the_end raw out w batch w1 :
  enrich_batch raw w = (Ok (Some batch), w1) ->
  writable w out = false ->
  process_posts raw out w = (Raise OSError, w1) /\ files w1 = files w.
Proof.
  intros Hb Hw.
  pose proof (process_posts_cases raw out w) as Hc. rewrite Hb in Hc.
  destruct (keeps_enrich_batch raw w) as [Hf Hwr]. rewrite Hb in Hf, Hwr. simpl in Hf, Hwr.
  split; [|exact Hf].
  rewrite Hc. unfold write_batch. rewrite Hwr, Hw. reflexivity.
Qed.

(** X19. A reply whose [tags] is one string instead of a list is not
    refused: the string is iterated, so that its characters are the tags.
    They enter the set of tags one by one, and the rewrite stores the
    renamed characters as the post's tags. *)
Theorem string_of_tags_is_split_into_characters (tag_map post : dict) (s : text) :
  Dict.get (lit "tags") post = Some (JStr s) ->
  Forall (fun c => is_hashable (renamed tag_map [c]) = true) s ->
  collect_tags [] [post] = Ok (set_of_list (List.map (fun c => JStr [c]) s))
  /\ rewrite_post (JObj tag_map) post
     = Ok (Dict.set (lit "tags")
             (JArr (set_order (set_of_list (List.map (fun c => renamed tag_map [c]) s))))
             post).
Proof.
  intros Hg Hh. split.
  - unfold collect_tags. simpl. rewrite Hg. simpl.
    assert (Hu : forall l acc,
              PySet.update acc (List.map (fun c : codepoint => JStr [c]) l)
              = Ok (fold_left (fun s x => PySet.add x s)
                      (List.map (fun c : codepoint => JStr [c]) l) acc)).
    { induction l as [|c l IH]; intros acc; simpl; [reflexivity|apply IH]. }
    rewrite Hu. reflexivity.
  - unfold rewrite_post. simpl. rewrite Hg. simpl.
    assert (Hm : List.map (fun c : codepoint => JStr [c]) s
                 = List.map JStr (List.map (fun c => [c]) s))
      by (rewrite List.map_map; reflexivity).
    rewrite Hm, map_tags_strings.
    + simpl. rewrite List.map_map. reflexivity.
    + clear -Hh. induction Hh; constructor; assumption.
Qed.

(** X20. An input that is valid JSON but cannot be iterated (a number,
    [true], [false], [null]) raises [TypeError] when the first loop
    starts: the model is not asked and no file changes. *)
Theorem input_that_is_no_collection_raises raw out w posts w0 :
  load_batch raw w = (Ok (Some posts), w0) ->
  posts = JNull \/ (exists b, posts = JBool b) \/ (exists n, posts = JInt n)
  \/ (exists q, posts = JFloat q) ->
  process_posts raw out w = (Raise TypeError, w0) /\ files w0 = files w.
Proof.
  intros Hl Hp.
  assert (Hi : iter posts = Raise TypeError).
  { destruct Hp as [->|[[b ->]|[[n ->]|[q ->]]]]; reflexivity. }
  assert (Hb : enrich_batch raw w = (Raise TypeError, w0)).
  { unfold enrich_batch. rewrite (bind_ok _ _ _ _ _ Hl).
    apply bind_raise. unfold lift. rewrite Hi. reflexivity. }
  pose proof (process_posts_cases raw out w) as Hc. rewrite Hb in Hc.
  pose proof (enrich_batch_files raw w) as Hf. rewrite Hb in Hf.
  split; [exact Hc|exact Hf].
Qed.

End Edges.

Lemma unwritable_output_raises_at_the_end_witness :
  let w := @Build_World Example.platform
             {[ Example.raw_path := Example.bytes_of Example.two_posts_text ]}
             (fun _ => false) []
             [Example.reply_a; Example.reply_b; Example.reply_unified] in
  fst (process_posts Example.raw_path default_processed_file_path w) = Raise OSError
  /\ llm (snd (process_posts Example.raw_path default_processed_file_path w)) = [].
Proof.
  intros w.
  assert (H : exists batch w1, enrich_batch Example.raw_path w = (Ok (Some batch), w1)
                               /\ llm w1 = []).
  { eexists. eexists. split; [run_lhs|reflexivity]. }
  destruct H as (batch & w1 & Hb & Hllm).
  destruct (unwritable_output_raises_at_the_end (P := Example.platform)
              Example.raw_path default_processed_file_path w batch w1 Hb eq_refl)
    as [H _].
  rewrite H. split; [reflexivity|exact Hllm].
Defined.

Lemma string_of_tags_is_split_into_characters_witness :
  rewrite_post (P := Example.platform) (JObj [(lit "A", JStr (lit "Alpha"))])
    [(lit "tags", JStr (lit "AIA"))]
  = Ok [(lit "tags", JArr [JStr (lit "Alpha"); JStr (lit "I")])].
Proof.
  apply (string_of_tags_is_split_into_characters (P := Example.platform)
           [(lit "A", JStr (lit "Alpha"))] [(lit "tags", JStr (lit "AIA"))] (lit "AIA")).
  - reflexivity.
  - repeat constructor.
Defined.

(** The file holds the text [7], which the parser of this platform reads
    as the number 7. *)
Lemma input_that_is_no_collection_raises_witness :
  let seven : Platform := {|
    read_text := py_read_text;
    llm_state := list text;
    llm_invoke := Example.scripted;
    output_parse := Example.parse;
    json_loads := fun _ => Some (JInt 7);
    json_dump := Example.dump;
    set_order := fun s => s;
    set_order_perm := fun s => Permutation_refl s |} in
  let w := @Build_World seven {[ Example.raw_path := [Byte.x37] ]} (fun _ => true) [] [] in
  @process_posts seven Example.raw_path default_processed_file_path w = (Raise TypeError, w).
Proof.
  intros seven w.
  apply (input_that_is_no_collection_raises (P := seven)
           Example.raw_path default_processed_file_path w (JInt 7) w).
  - reflexivity.
  - right. right. left. exists 7. reflexivity.
Defined.
